(** * Image converters of ckeditor5-image: view <-> model conversion

    A shallow embedding of [packages/ckeditor5-image/src/image/converters.js]
    ([viewFigureToModel], [srcsetAttributeConverter],
    [modelToViewAttributeConverter], [addUpcastImageConverters]) together with
    the collaborators the converters call (consumable, writer, mapper,
    item/children conversion), and the properties of the converters. *)

From Stdlib Require Import ZArith DecimalString.
From stdpp Require Import base option list strings gmap fin_maps.

Open Scope string_scope.
Open Scope list_scope.
Set Warnings "-register-all".

(** ** JavaScript values reaching the converters *)

(** Attribute values are untyped in the source: a scalar, [null], [undefined]
    or a plain object such as [{ data: ..., width: ... }].  Numbers are
    restricted to integers (no [NaN]) below the magnitude from which
    JavaScript prints an exponent; an object is its list of own properties in
    insertion order. *)
Inductive Value : Type :=
| VUndefined
| VNull
| VBool (b : bool)
| VNum (n : Z)
| VStr (s : string)
| VObj (props : list (string * Value)).

(** Truthiness, as used by [if ( x )] and [x || y]. *)
Definition truthy (v : Value) : bool :=
  match v with
  | VUndefined | VNull => false
  | VBool b => b
  | VNum n => negb (n =? 0)%Z
  | VStr s => match s with EmptyString => false | String _ _ => true end
  | VObj _ => true
  end.

(** [a || b] *)
Definition js_or (a b : Value) : Value := if truthy a then a else b.

(** [String( v )]: the decimal numeral of an integer, [[object Object]] for a
    plain object. *)
Definition js_String (v : Value) : string :=
  match v with
  | VUndefined => "undefined"
  | VNull => "null"
  | VBool true => "true"
  | VBool false => "false"
  | VNum n => NilZero.string_of_int (Z.to_int n)
  | VStr s => s
  | VObj _ => "[object Object]"
  end.

(** [v === null] *)
Definition is_null (v : Value) : bool :=
  match v with VNull => true | _ => false end.

(** Own-property lookup in an object literal. *)
Fixpoint own_prop (k : string) (props : list (string * Value)) : option Value :=
  match props with
  | [] => None
  | (k', v) :: rest => if String.eqb k k' then Some v else own_prop k rest
  end.

(** Outcome of a JavaScript computation: a value or a thrown exception. *)
Inductive Outcome (A : Type) : Type :=
| Val (a : A)
| Throw (e : string).
Arguments Val {A} a.
Arguments Throw {A} e.

Definition TypeError : string := "TypeError".

(** [v.k] for the property names the converters read ([data], [width]):
    reading off [undefined] or [null] throws, a primitive has no such
    property, an object yields its own property or [undefined]. *)
Definition get_prop (v : Value) (k : string) : Outcome Value :=
  match v with
  | VUndefined | VNull => Throw TypeError
  | VBool _ | VNum _ | VStr _ => Val VUndefined
  | VObj props => Val (default VUndefined (own_prop k props))
  end.

(** [v] is an object that carries an own property [k]. *)
Definition has_field (v : Value) (k : string) : bool :=
  match v with
  | VObj props => bool_decide (is_Some (own_prop k props))
  | _ => false
  end.

(** ** Nodes and consumable features *)

(** Nodes (view elements, model items) are referred to by identity. *)
Definition Node : Type := positive.

(** What can be consumed on a node: its name, one of its classes, or (on the
    downcast side) the attribute-change event such as
    [attribute:srcset:image]. *)
Inductive Feature : Type :=
| FName
| FClass (c : string)
| FEvent (name : string).

#[global] Instance Feature_eq_dec : EqDecision Feature.
Proof. solve_decision. Defined.

#[global] Instance Feature_countable : Countable Feature.
Proof.
  refine (inj_countable'
    (fun f => match f with
              | FName => inl tt
              | FClass c => inr (inl c)
              | FEvent n => inr (inr n)
              end)
    (fun x => match x with
              | inl _ => FName
              | inr (inl c) => FClass c
              | inr (inr n) => FEvent n
              end) _).
  by intros [].
Defined.

(** ** The consumable gate *)

Module Gate.

(** Modelled from the spec: the consumable ([conversionApi.consumable]) lives
    in the engine, outside this package.  It is a finite map in which a
    feature of a node is absent (never registered), [true] (still
    consumable) or [false] (consumed). *)
Definition available (g : gmap (Node * Feature) bool) (n : Node) (f : Feature) : bool :=
  bool_decide (g !! (n, f) = Some true).

(** Modelled from the spec: [test(node, features)] is the non-destructive
    check that all listed features are still unconsumed. *)
Definition test (g : gmap (Node * Feature) bool) (n : Node) (fs : list Feature) : bool :=
  forallb (available g n) fs.

(** Modelled from the spec: marking one feature consumed. *)
Definition mark (n : Node) (f : Feature) (g : gmap (Node * Feature) bool)
  : gmap (Node * Feature) bool :=
  <[(n, f) := false]> g.

(** Modelled from the spec: [consume(node, features)] marks all listed
    features consumed and answers [true]; when one of them is not
    consumable it answers [false] and has no effect. *)
Definition consume (g : gmap (Node * Feature) bool) (n : Node) (fs : list Feature)
  : bool * gmap (Node * Feature) bool :=
  if test g n fs then (true, foldr (mark n) g fs) else (false, g).

End Gate.

Arguments Gate.test : simpl never.
Arguments Gate.consume : simpl never.

(** ** The view tree, the journal and the conversion state *)

(** A view element.  Attribute values are strings: whatever is written is
    stored as [String( value )]. *)
Record ViewElement : Type := mkViewElement {
  name : string;
  attrs : gmap string Value;
  classes : list string;
  children : list Node
}.

(** Modelled from the spec: the element's own attribute store, whose values
    are strings; the value handed in is kept in its string form. *)
Definition set_attr (k : string) (v : Value) (e : ViewElement) : ViewElement :=
  {| name := name e; attrs := <[k := VStr (js_String v)]> (attrs e);
     classes := classes e; children := children e |}.

Definition remove_attr (k : string) (e : ViewElement) : ViewElement :=
  {| name := name e; attrs := delete k (attrs e);
     classes := classes e; children := children e |}.

(** [viewElement.getAttribute( k )] and [viewElement.hasAttribute( k )]. *)
Definition getAttribute (e : ViewElement) (k : string) : Value :=
  default VUndefined (attrs e !! k).

Definition hasAttribute (e : ViewElement) (k : string) : bool :=
  bool_decide (is_Some (attrs e !! k)).

(** A model position (the insertion cursor); never inspected here. *)
Definition Position : Type := list nat.

(** What [convertItem] hands back; the range is represented by the items
    [modelRange.getItems()] enumerates. *)
Record ConversionResult : Type := mkConversionResult {
  modelRange : list Node;
  resultCursor : Position
}.

(** [first( iterable )] of ckeditor5-utils: the first item, or [null]. *)
Definition first {A : Type} (items : list A) : option A := head items.

(** [data] of an [element:figure] event. *)
Record UpcastData : Type := mkUpcastData {
  viewItem : Node;
  modelCursor : Position
}.

(** [data] of an [attribute:<key>:<type>] event. *)
Record DowncastData : Type := mkDowncastData {
  item : Node;
  attributeKey : string;
  attributeOldValue : Value;
  attributeNewValue : Value
}.

(** Calls a converter makes on the conversion API, in program order. *)
Inductive Event : Type :=
| EvTest (n : Node) (fs : list Feature) (r : bool)
| EvConsume (n : Node) (fs : list Feature) (r : bool)
| EvSetAttribute (k : string) (v : Value) (target : option Node)
| EvRemoveAttribute (k : string) (target : option Node)
| EvConvertItem (v : Node) (cursor : Position)
| EvConvertChildren (v : Node) (modelParent : Node)
| EvUpdateConversionResult (modelItem : Node).

Definition is_test (ev : Event) : bool :=
  match ev with EvTest _ _ _ => true | _ => false end.

Definition is_consume (ev : Event) : bool :=
  match ev with EvConsume _ _ _ => true | _ => false end.

(** Calls that change the output (view attributes or the model tree). *)
Definition is_mutation (ev : Event) : bool :=
  match ev with
  | EvSetAttribute _ _ _ | EvRemoveAttribute _ _
  | EvConvertItem _ _ | EvConvertChildren _ _
  | EvUpdateConversionResult _ => true
  | EvTest _ _ _ | EvConsume _ _ _ => false
  end.

Definition is_set_attribute (ev : Event) : bool :=
  match ev with EvSetAttribute _ _ _ => true | _ => false end.

Definition is_remove_attribute (ev : Event) : bool :=
  match ev with EvRemoveAttribute _ _ => true | _ => false end.

Section Conversion.

(** State owned by the document-model layer (model tree, conversion
    result), opaque to the converters. *)
Context {E : Type}.

(** Everything a conversion pass can read or change. *)
Record State : Type := mkState {
  consumable : gmap (Node * Feature) bool;
  view : gmap Node ViewElement;
  mapper : gmap Node Node;
  ext : E
}.

Record World : Type := mkWorld {
  st : State;
  journal : list Event
}.

Definition with_consumable (g : gmap (Node * Feature) bool) (s : State) : State :=
  {| consumable := g; view := view s; mapper := mapper s; ext := ext s |}.

Definition with_view (v : gmap Node ViewElement) (s : State) : State :=
  {| consumable := consumable s; view := v; mapper := mapper s; ext := ext s |}.

Definition log (ev : Event) (w : World) : World :=
  {| st := st w; journal := journal w ++ [ev] |}.

(** *** A state-and-exception monad for converter bodies

    A thrown exception keeps the state reached so far: JavaScript does not
    roll mutations back. *)
Definition M (A : Type) : Type := World → Outcome A * World.

Definition ret {A : Type} (a : A) : M A := fun w => (Val a, w).

Definition bind {A B : Type} (m : M A) (k : A → M B) : M B :=
  fun w =>
    match m w with
    | (Val a, w') => k a w'
    | (Throw e, w') => (Throw e, w')
    end.

Definition lift {A : Type} (o : Outcome A) : M A := fun w => (o, w).

End Conversion.

Arguments State : clear implicits.
Arguments World : clear implicits.
Arguments M : clear implicits.

Notation "'let*' x := m 'in' k" := (bind m (fun x => k))
  (at level 10, x name, m at level 200, k at level 200).
Notation "'do' m 'then' k" := (bind m (fun _ => k))
  (at level 10, m at level 200, k at level 200).

(** ** The conversion API and the converters *)

Section Converters.

Context {E : Type}.

(** [getViewImgFromWidget] of [./utils]: the inner [img] of a widget, or
    [undefined]; it is handed whatever the caller has, possibly
    [undefined]. *)
Variable getViewImgFromWidget :
  gmap Node ViewElement → option Node → Outcome (option Node).

(** The upcast entry points of the engine; they may run any other
    converter, so they act on the whole state. *)
Variable convertItem : Node → Position → State E → Outcome ConversionResult * State E.
Variable convertChildren : Node → Node → State E → Outcome unit * State E.
Variable updateConversionResult : Node → UpcastData → State E → Outcome unit * State E.

(** [conversionApi.consumable.test( node, features )] *)
Definition consumable_test (n : Node) (fs : list Feature) : M E bool :=
  fun w =>
    let r := Gate.test (consumable (st w)) n fs in
    (Val r, log (EvTest n fs r) w).

(** [conversionApi.consumable.consume( node, features )] *)
Definition consumable_consume (n : Node) (fs : list Feature) : M E bool :=
  fun w =>
    let rg := Gate.consume (consumable (st w)) n fs in
    (Val rg.1,
     {| st := with_consumable rg.2 (st w);
        journal := journal w ++ [EvConsume n fs rg.1] |}).

(** Modelled from the spec: [conversionApi.mapper.toViewElement( modelItem )],
    the node-identity mapping of the engine; [undefined] when unmapped. *)
Definition mapper_toViewElement (modelItem : Node) : M E (option Node) :=
  fun w => (Val (mapper (st w) !! modelItem), w).

(** [getViewImgFromWidget( element )] on the current view. *)
Definition locate (element : option Node) : M E (option Node) :=
  fun w => (getViewImgFromWidget (view (st w)) element, w).

(** [viewImage.hasAttribute( k )] on a node reference; a reference that is
    not an element of the view makes it throw. *)
Definition element_hasAttribute (n : Node) (k : string) : M E bool :=
  fun w =>
    match view (st w) !! n with
    | Some e => (Val (hasAttribute e k), w)
    | None => (Throw TypeError, w)
    end.

(** Modelled from the spec: the view writer of the engine.
    [writer.setAttribute( k, v, target )] overwrites the attribute on the
    target element, which stores [v] as a string (see [set_attr]); a target
    that is not an element makes it throw. *)
Definition writer_setAttribute (k : string) (v : Value) (target : option Node)
  : M E unit :=
  fun w =>
    let w1 := log (EvSetAttribute k v target) w in
    match target with
    | Some n =>
        match view (st w) !! n with
        | Some e =>
            (Val tt,
             {| st := with_view (<[n := set_attr k v e]> (view (st w))) (st w);
                journal := journal w1 |})
        | None => (Throw TypeError, w1)
        end
    | None => (Throw TypeError, w1)
    end.

(** Modelled from the spec: [writer.removeAttribute( k, target )]. *)
Definition writer_removeAttribute (k : string) (target : option Node) : M E unit :=
  fun w =>
    let w1 := log (EvRemoveAttribute k target) w in
    match target with
    | Some n =>
        match view (st w) !! n with
        | Some e =>
            (Val tt,
             {| st := with_view (<[n := remove_attr k e]> (view (st w))) (st w);
                journal := journal w1 |})
        | None => (Throw TypeError, w1)
        end
    | None => (Throw TypeError, w1)
    end.

(** A call into the engine, recorded in the journal. *)
Definition call {A : Type} (ev : Event) (f : State E → Outcome A * State E) : M E A :=
  fun w =>
    let os := f (st w) in
    (os.1, {| st := os.2; journal := journal w ++ [ev] |}).

(** *** [viewFigureToModel]: the [element:figure] converter *)

Definition figure_guard : list Feature := [FName; FClass "image"].

Definition viewFigureToModel_converter (data : UpcastData) : M E unit :=
  (* Do not convert if this is not an "image figure". *)
  let* isImageFigure := consumable_test (viewItem data) figure_guard in
  if negb isImageFigure then ret tt else
  (* Find an image element inside the figure element. *)
  let* viewImage := locate (Some (viewItem data)) in
  match viewImage with
  | None => ret tt
  | Some img =>
      let* hasSrc := element_hasAttribute img "src" in
      if negb hasSrc then ret tt else
      let* notConverted := consumable_test img [FName] in
      if negb notConverted then ret tt else
      (* Convert view image to model image. *)
      let* conversionResult :=
        call (EvConvertItem img (modelCursor data))
             (convertItem img (modelCursor data)) in
      (* Get image element from conversion result. *)
      match first (modelRange conversionResult) with
      | None => ret tt
      | Some modelImage =>
          do call (EvConvertChildren (viewItem data) modelImage)
                  (convertChildren (viewItem data) modelImage)
          then call (EvUpdateConversionResult modelImage)
                    (updateConversionResult modelImage data)
      end
  end.

(** [dispatcher.on( 'element:figure', converter )] *)
Definition viewFigureToModel : string * (UpcastData → M E unit) :=
  ("element:figure", viewFigureToModel_converter).

(** *** [srcsetAttributeConverter] *)

Definition srcsetAttributeConverter_converter (evt_name : string) (data : DowncastData)
  : M E unit :=
  let* consumed := consumable_consume (item data) [FEvent evt_name] in
  if negb consumed then ret tt else
  let* element := mapper_toViewElement (item data) in
  let* img := locate element in
  if is_null (attributeNewValue data) then
    let srcset := attributeOldValue data in
    let* srcset_data := lift (get_prop srcset "data") in
    if truthy srcset_data then
      do writer_removeAttribute "srcset" img then
      do writer_removeAttribute "sizes" img then
      let* srcset_width := lift (get_prop srcset "width") in
      if truthy srcset_width then writer_removeAttribute "width" img else ret tt
    else ret tt
  else
    let srcset := attributeNewValue data in
    let* srcset_data := lift (get_prop srcset "data") in
    if truthy srcset_data then
      do writer_setAttribute "srcset" srcset_data img then
      (* Always outputting `100vw`. *)
      do writer_setAttribute "sizes" (VStr "100vw") img then
      let* srcset_width := lift (get_prop srcset "width") in
      if truthy srcset_width then writer_setAttribute "width" srcset_width img
      else ret tt
    else ret tt.

(** [dispatcher.on( `attribute:srcset:${ imageType }`, converter )] *)
Definition srcsetAttributeConverter (imageType : string)
  : string * (string → DowncastData → M E unit) :=
  (("attribute:srcset:" ++ imageType)%string, srcsetAttributeConverter_converter).

(** *** [modelToViewAttributeConverter] *)

Definition modelToViewAttributeConverter_converter (evt_name : string) (data : DowncastData)
  : M E unit :=
  let* consumed := consumable_consume (item data) [FEvent evt_name] in
  if negb consumed then ret tt else
  let* element := mapper_toViewElement (item data) in
  let* img := locate element in
  writer_setAttribute (attributeKey data)
                      (js_or (attributeNewValue data) (VStr "")) img.

(** [dispatcher.on( `attribute:${ attributeKey }:${ imageType }`, converter )] *)
Definition modelToViewAttributeConverter (attributeKey imageType : string)
  : string * (string → DowncastData → M E unit) :=
  (("attribute:" ++ attributeKey ++ ":" ++ imageType)%string,
   modelToViewAttributeConverter_converter).

End Converters.

(** ** [addUpcastImageConverters]: the declared upcast mappers *)

(** One [attributeToAttribute] declaration: the view element name and
    attribute key, the model key, and the optional value callback. *)
Record AttributeToAttribute : Type := mkAttributeToAttribute {
  view_name : string;
  view_key : string;
  model_key : string;
  model_value : option (ViewElement → Value)
}.

(** The [value] callback of the srcset declaration. *)
Definition srcset_value (viewImage : ViewElement) : Value :=
  VObj (("data", getAttribute viewImage "srcset")
        :: (if hasAttribute viewImage "width"
            then [("width", getAttribute viewImage "width")]
            else [])).

Definition addUpcastImageConverters : list AttributeToAttribute :=
  [ {| view_name := "img"; view_key := "alt";
       model_key := "alt"; model_value := None |};
    {| view_name := "img"; view_key := "srcset";
       model_key := "srcset"; model_value := Some srcset_value |} ].

(** Modelled from the spec: how the engine's [attributeToAttribute] reads a
    declaration.  The model value is the callback's result, or the raw view
    attribute when no callback is declared (identity transform). *)
Definition upcast_value (d : AttributeToAttribute) (e : ViewElement) : Value :=
  match model_value d with
  | Some f => f e
  | None => getAttribute e (view_key d)
  end.

(** The declaration registered for a given model key. *)
Definition declared_mapper (key : string) : option AttributeToAttribute :=
  List.find (fun d => String.eqb (model_key d) key) addUpcastImageConverters.

(** ** Derived notions used to state the properties *)

(** [v.k] where a failed read counts as [undefined]. *)
Definition field (v : Value) (k : string) : Value :=
  match get_prop v k with
  | Val x => x
  | Throw _ => VUndefined
  end.

(** [v.k] can be read and is truthy: the test [if ( srcset.k )] passes. *)
Definition truthy_field (v : Value) (k : string) : bool := truthy (field v k).

(** The value the srcset converter binds to [srcset] in the branch it takes. *)
Definition srcset_of (data : DowncastData) : Value :=
  if is_null (attributeNewValue data) then attributeOldValue data
  else attributeNewValue data.

(** The state right after a converter's successful [consume]. *)
Definition consumed_state {E : Type} (evt : string) (data : DowncastData) (w : World E)
  : State E :=
  with_consumable (Gate.mark (item data) (FEvent evt) (consumable (st w))) (st w).

Definition consume_event (evt : string) (data : DowncastData) (r : bool) : Event :=
  EvConsume (item data) [FEvent evt] r.

(** The element the srcset converter leaves behind when it sets a value. *)
Definition img_after_set (e : ViewElement) (new : Value) : ViewElement :=
  let e2 := set_attr "sizes" (VStr "100vw") (set_attr "srcset" (field new "data") e) in
  if truthy_field new "width" then set_attr "width" (field new "width") e2 else e2.

(** The element it leaves behind when it removes one. *)
Definition img_after_removal (e : ViewElement) (old : Value) : ViewElement :=
  let e2 := remove_attr "sizes" (remove_attr "srcset" e) in
  if truthy_field old "width" then remove_attr "width" e2 else e2.

Definition is_writer_call (ev : Event) : bool :=
  is_set_attribute ev || is_remove_attribute ev.

(** The calls a converter body adds to the journal when run from [w]. *)
Definition made_calls {E A : Type} (h : M E A) (w : World E) : list Event :=
  drop (length (journal w)) (journal (h w).2).

(** The model value the declared upcast mapper for [key] reads off an element. *)
Definition upcast_attribute (key : string) (e : ViewElement) : option Value :=
  (fun d => upcast_value d e) <$> declared_mapper key.

(** The element converter with its collaborators plugged in. *)
Definition figure_run {E : Type}
    (getImg : gmap Node ViewElement → option Node → Outcome (option Node))
    (convertItem : Node → Position → State E → Outcome ConversionResult * State E)
    (convertChildren : Node → Node → State E → Outcome unit * State E)
    (updateConversionResult : Node → UpcastData → State E → Outcome unit * State E)
    (data : UpcastData) : M E unit :=
  viewFigureToModel_converter getImg convertItem convertChildren
    updateConversionResult data.

(** ** Order of gate calls and output calls *)

(** The discipline as the specification words it: nothing happens before a
    [test], and each [consume] is directly followed by a call that mutates
    the output. *)
Definition tested_first (calls : list Event) : bool :=
  match calls with
  | [] => true
  | ev :: _ => is_test ev
  end.

Fixpoint consume_precedes_mutation (calls : list Event) : bool :=
  match calls with
  | [] => true
  | ev :: rest =>
      (if is_consume ev
       then match rest with
            | next :: _ => is_mutation next
            | [] => false
            end
       else true)
      && consume_precedes_mutation rest
  end.

Definition lock_discipline (calls : list Event) : bool :=
  tested_first calls && consume_precedes_mutation calls.

(** What the converters do instead.  Calls into the engine that may follow
    [convertItem] in the element converter: *)
Inductive engine_calls (v : Node) : list Event → Prop :=
| engine_stop : engine_calls v []
| engine_children (m : Node) : engine_calls v [EvConvertChildren v m]
| engine_children_result (m : Node) :
    engine_calls v [EvConvertChildren v m; EvUpdateConversionResult m].

(** Call sequences of the element converter: tests only, until both guards
    have passed. *)
Inductive figure_trace (v : Node) (cursor : Position) : list Event → Prop :=
| figure_not_image : figure_trace v cursor [EvTest v figure_guard false]
| figure_without_img : figure_trace v cursor [EvTest v figure_guard true]
| figure_img_taken (img : Node) :
    figure_trace v cursor [EvTest v figure_guard true; EvTest img [FName] false]
| figure_delegated (img : Node) (rest : list Event) :
    engine_calls v rest →
    figure_trace v cursor
      (EvTest v figure_guard true :: EvTest img [FName] true
       :: EvConvertItem img cursor :: rest).

(** Call sequences of the attribute converters: consume first, writer calls
    only after it succeeded. *)
Inductive attribute_trace (i : Node) (evt : string) : list Event → Prop :=
| attribute_declined : attribute_trace i evt [EvConsume i [FEvent evt] false]
| attribute_consumed (rest : list Event) :
    forallb is_writer_call rest = true →
    attribute_trace i evt (EvConsume i [FEvent evt] true :: rest).

(** ** Frames: what a converter may change *)

(** Every run of [m] relates the state it starts from to the state it ends
    in by [R], whether it returns or throws. *)
Definition preserves {E A : Type} (R : State E → State E → Prop) (m : M E A) : Prop :=
  ∀ w, R (st w) (st (m w).2).

(** [P] survives: if it held before, it holds after. *)
Definition keeps {E : Type} (P : State E → Prop) (s s' : State E) : Prop :=
  P s → P s'.

(** Two versions of an element that differ at most in the attributes [keys]. *)
Definition same_but (keys : list string) (e e' : ViewElement) : Prop :=
  name e' = name e ∧ classes e' = classes e ∧ children e' = children e
  ∧ ∀ k, k ∉ keys → attrs e' !! k = attrs e !! k.

(** What an attribute converter for event [evt] on item [i] may change: the
    consumable at that one feature (and only towards consumed), and the
    attributes [keys] of elements that exist already. *)
Definition attribute_frame {E : Type} (i : Node) (evt : string) (keys : list string)
    (s s' : State E) : Prop :=
  mapper s' = mapper s
  ∧ ext s' = ext s
  ∧ (∀ key, key ≠ (i, FEvent evt) → consumable s' !! key = consumable s !! key)
  ∧ (consumable s' !! (i, FEvent evt) = consumable s !! (i, FEvent evt)
     ∨ consumable s' !! (i, FEvent evt) = Some false)
  ∧ ∀ n, option_Forall2 (same_but keys) (view s !! n) (view s' !! n).

(** The attributes the srcset converter writes. *)
Definition srcset_keys : list string := ["srcset"; "sizes"; "width"].

(** A later pass over the state [s] an earlier pass left: the same view,
    mapper and model, with a consumable [g] of its own. *)
Definition later_pass {E : Type} (g : gmap (Node * Feature) bool) (s : State E)
  : World E :=
  {| st := with_consumable g s; journal := [] |}.

(** ** A concrete pass, used to exercise the theorems *)

Module Sample.

Definition is_img (v : gmap Node ViewElement) (n : Node) : bool :=
  match v !! n with
  | Some e => String.eqb (name e) "img"
  | None => false
  end.

Definition children_of (v : gmap Node ViewElement) (n : Node) : list Node :=
  match v !! n with
  | Some e => children e
  | None => []
  end.

(** First [img] among the nodes [ns] and their descendants, down to
    [depth] levels. *)
Fixpoint find_img (depth : nat) (v : gmap Node ViewElement) (ns : list Node)
  : option Node :=
  match depth with
  | O => None
  | S d =>
      (fix scan (l : list Node) : option Node :=
         match l with
         | [] => None
         | n :: rest =>
             if is_img v n then Some n
             else match find_img d v (children_of v n) with
                  | Some r => Some r
                  | None => scan rest
                  end
         end) ns
  end.

(** Modelled from the spec: the widget image locator
    ([getViewImgFromWidget] of [./utils]).  The element itself when it is an
    [img], otherwise the first [img] among its (shallow) descendants;
    absence is reported as not found, never as a failure. *)
Definition getViewImgFromWidget (v : gmap Node ViewElement) (element : option Node)
  : Outcome (option Node) :=
  match element with
  | None => Val None
  | Some n =>
      if is_img v n then Val (Some n)
      else Val (find_img 2 v (children_of v n))
  end.

(** Model item [1] is rendered as [<figure class="image">] (node [10])
    holding [<img src="a.png">] (node [11]) and a caption (node [12]). *)
Definition figure : ViewElement :=
  {| name := "figure"; attrs := ∅; classes := ["image"]; children := [11; 12]%positive |}.

Definition img : ViewElement :=
  {| name := "img"; attrs := {[ "src" := VStr "a.png" ]};
     classes := []; children := [] |}.

(** The same image once srcset has been rendered on it. *)
Definition img_rendered : ViewElement :=
  {| name := "img";
     attrs := list_to_map
       [ ("src", VStr "a.png"); ("srcset", VStr "a 1x, b 2x");
         ("sizes", VStr "100vw"); ("width", VStr "300") ];
     classes := []; children := [] |}.

Definition caption : ViewElement :=
  {| name := "figcaption"; attrs := ∅; classes := []; children := [] |}.

Definition view_with (i : ViewElement) : gmap Node ViewElement :=
  <[10%positive := figure]> (<[11%positive := i]> (<[12%positive := caption]> ∅)).

Definition srcset_event : string := "attribute:srcset:image".
Definition alt_event : string := "attribute:alt:image".

Definition the_consumable : gmap (Node * Feature) bool :=
  list_to_map
    [ ((1%positive, FEvent srcset_event), true);
      ((1%positive, FEvent alt_event), true);
      ((10%positive, FName), true);
      ((10%positive, FClass "image"), true);
      ((11%positive, FName), true) ].

Definition state_with (i : ViewElement) : State unit :=
  {| consumable := the_consumable; view := view_with i;
     mapper := {[ 1%positive := 10%positive ]}; ext := tt |}.

Definition world : World unit := {| st := state_with img; journal := [] |}.

Definition world_rendered : World unit :=
  {| st := state_with img_rendered; journal := [] |}.

Definition change (old new : Value) : DowncastData :=
  {| item := 1%positive; attributeKey := "srcset";
     attributeOldValue := old; attributeNewValue := new |}.

Definition srcset_full : Value :=
  VObj [("data", VStr "a 1x, b 2x"); ("width", VStr "300")].

(** An image without [src], and a figure event on node [10]. *)
Definition img_no_src : ViewElement :=
  {| name := "img"; attrs := ∅; classes := []; children := [] |}.

Definition world_no_src : World unit :=
  {| st := state_with img_no_src; journal := [] |}.

Definition figure_event : UpcastData :=
  {| viewItem := 10%positive; modelCursor := [0] |}.

(** Stand-ins for the engine: an item conversion that produces model node
    [2] and consumes the image name, one that produces nothing, and
    children/result steps that leave the state alone. *)
Definition convertItem (v : Node) (cursor : Position) (s : State unit)
  : Outcome ConversionResult * State unit :=
  (Val {| modelRange := [2%positive]; resultCursor := cursor |},
   with_consumable (Gate.mark v FName (consumable s)) s).

Definition convertItem_nothing (v : Node) (cursor : Position) (s : State unit)
  : Outcome ConversionResult * State unit :=
  (Val {| modelRange := []; resultCursor := cursor |}, s).

Definition convertChildren (v modelParent : Node) (s : State unit)
  : Outcome unit * State unit := (Val tt, s).

Definition updateConversionResult (modelItem : Node) (data : UpcastData) (s : State unit)
  : Outcome unit * State unit := (Val tt, s).

(** Stand-ins that fail. *)
Definition convertItem_throws (v : Node) (cursor : Position) (s : State unit)
  : Outcome ConversionResult * State unit := (Throw "conversion-error", s).

Definition convertChildren_throws (v modelParent : Node) (s : State unit)
  : Outcome unit * State unit := (Throw "children-error", s).

(** A model item the pass has no consumable for. *)
Definition change_unregistered : DowncastData :=
  {| item := 2%positive; attributeKey := "srcset";
     attributeOldValue := VNull; attributeNewValue := srcset_full |}.

Definition alt_change (new : Value) : DowncastData :=
  {| item := 1%positive; attributeKey := "alt";
     attributeOldValue := VNull; attributeNewValue := new |}.

(** An image that already carries a width of its own. *)
Definition img_wide : ViewElement :=
  {| name := "img";
     attrs := list_to_map [ ("src", VStr "a.png"); ("width", VStr "640") ];
     classes := []; children := [] |}.

Definition world_wide : World unit := {| st := state_with img_wide; journal := [] |}.

End Sample.

(** ** Proof tactics *)

(** Unfolds one converter body down to the state it computes. *)
Ltac unfold_api :=
  unfold bind, ret, lift, call, consumable_test, consumable_consume,
    mapper_toViewElement, locate, element_hasAttribute,
    writer_setAttribute, writer_removeAttribute, log, with_view,
    with_consumable; cbn.

(** Case analysis on every scrutinee left in the goal, innermost first. *)
Ltac split_branches :=
  repeat first
    [ progress cbn
    | match goal with
      | |- context [match ?x with _ => _ end] =>
          lazymatch x with
          | context [match _ with _ => _ end] => fail
          | _ => destruct x eqn:?
          end
      end ].

(** * Properties *)

(** ** The consumable gate *)

Lemma test_false_of_consumed g n fs f :
  f ∈ fs → g !! (n, f) = Some false → Gate.test g n fs = false.
Proof.
  intros Hin Hf. unfold Gate.test.
  apply not_true_is_false. intros Hall.
  rewrite forallb_forall in Hall.
  specialize (Hall f (proj1 (list_elem_of_In _ _) Hin)).
  unfold Gate.available in Hall. apply bool_decide_eq_true in Hall. congruence.
Qed.

Lemma lookup_marked n fs g f :
  f ∈ fs → foldr (Gate.mark n) g fs !! (n, f) = Some false.
Proof.
  induction fs as [|f' fs IH]; intros Hin.
  - by apply elem_of_nil in Hin.
  - cbn. unfold Gate.mark at 1.
    destruct (decide (f' = f)) as [->|Hne].
    + by rewrite lookup_insert_eq.
    + rewrite lookup_insert_ne by congruence.
      apply IH. apply elem_of_cons in Hin as [?|?]; [congruence | done].
Qed.

Lemma lookup_marked_other n fs g m f :
  (m ≠ n ∨ f ∉ fs) → foldr (Gate.mark n) g fs !! (m, f) = g !! (m, f).
Proof.
  induction fs as [|f' fs IH]; intros Hne; [done|].
  cbn. unfold Gate.mark at 1. rewrite lookup_insert_ne.
  - apply IH. destruct Hne as [?|Hnin]; [by left | right].
    intros ?. apply Hnin. by right.
  - intros [= -> ->]. destruct Hne as [?|Hnin]; [done|].
    apply Hnin. by left.
Qed.

(** C8: consume is all-or-nothing.  When one of the requested features of a
    node is already consumed, the call answers [false] and the gate, hence
    the status of every requested feature, is left as it was. *)
Theorem consume_all_or_nothing
    (g : gmap (Node * Feature) bool) (n : Node) (fs : list Feature) (f : Feature) :
  f ∈ fs →
  g !! (n, f) = Some false →
  (Gate.consume g n fs).1 = false ∧
  (Gate.consume g n fs).2 = g ∧
  ∀ f', f' ∈ fs → (Gate.consume g n fs).2 !! (n, f') = g !! (n, f').
Proof.
  intros Hin Hf.
  unfold Gate.consume.
  rewrite (test_false_of_consumed g n fs f Hin Hf).
  by repeat split.
Qed.

Lemma consume_all_or_nothing_witness :
  let g : gmap (Node * Feature) bool :=
    <[(10%positive, FName) := false]> {[ (10%positive, FClass "image") := true ]} in
  (Gate.consume g 10%positive figure_guard).1 = false ∧
  (Gate.consume g 10%positive figure_guard).2 = g ∧
  ∀ f', f' ∈ figure_guard →
        (Gate.consume g 10%positive figure_guard).2 !! (10%positive, f') = g !! (10%positive, f').
Proof.
  intros g.
  apply (consume_all_or_nothing g 10%positive figure_guard FName).
  - apply list_elem_of_here.
  - vm_compute. reflexivity.
Defined.

(** A successful consume marks every requested feature and nothing else. *)
Lemma consume_success g n fs :
  Gate.test g n fs = true →
  Gate.consume g n fs = (true, foldr (Gate.mark n) g fs).
Proof. intros H. unfold Gate.consume. by rewrite H. Qed.

Lemma consume_failure g n fs :
  Gate.test g n fs = false → Gate.consume g n fs = (false, g).
Proof. intros H. unfold Gate.consume. by rewrite H. Qed.

(** After a successful consume every requested feature is consumed and every
    other feature is as before. *)
Lemma consume_marks_requested g n fs :
  Gate.test g n fs = true →
  (∀ f, f ∈ fs → (Gate.consume g n fs).2 !! (n, f) = Some false)
  ∧ (∀ m f, m ≠ n ∨ f ∉ fs → (Gate.consume g n fs).2 !! (m, f) = g !! (m, f)).
Proof.
  intros H. rewrite (consume_success g n fs H). cbn. split.
  - intros f Hin. by apply lookup_marked.
  - intros m f Hne. by apply lookup_marked_other.
Qed.

(** The sample events are the ones the converters register for. *)
Lemma sample_event_names :
  (srcsetAttributeConverter (E := unit) Sample.getViewImgFromWidget "image").1
  = Sample.srcset_event
  ∧ (modelToViewAttributeConverter (E := unit) Sample.getViewImgFromWidget "alt" "image").1
    = Sample.alt_event.
Proof. split; reflexivity. Qed.

(** ** The downcast attribute converters *)

Section Downcast.

Context {E : Type}.
Variable getImg : gmap Node ViewElement → option Node → Outcome (option Node).
Variables (evt : string) (data : DowncastData) (w : World E).

(** When the event is no longer consumable, both converters return at once. *)
Lemma srcset_declined :
  Gate.test (consumable (st w)) (item data) [FEvent evt] = false →
  srcsetAttributeConverter_converter getImg evt data w
  = (Val tt, {| st := st w; journal := journal w ++ [consume_event evt data false] |}).
Proof.
  intros H. unfold srcsetAttributeConverter_converter. unfold_api.
  rewrite (consume_failure _ _ _ H). cbn. by destruct (st w).
Qed.

Lemma mirror_declined :
  Gate.test (consumable (st w)) (item data) [FEvent evt] = false →
  modelToViewAttributeConverter_converter getImg evt data w
  = (Val tt, {| st := st w; journal := journal w ++ [consume_event evt data false] |}).
Proof.
  intros H. unfold modelToViewAttributeConverter_converter. unfold_api.
  rewrite (consume_failure _ _ _ H). cbn. by destruct (st w).
Qed.

Variables (img : Node) (e : ViewElement).
Hypothesis Havail : Gate.test (consumable (st w)) (item data) [FEvent evt] = true.
Hypothesis Himg : getImg (view (st w)) (mapper (st w) !! item data) = Val (Some img).
Hypothesis Hview : view (st w) !! img = Some e.

Lemma srcset_set_run :
  is_null (attributeNewValue data) = false →
  let new := attributeNewValue data in
  let w' := (srcsetAttributeConverter_converter getImg evt data w).2 in
  journal w' =
    journal w ++ consume_event evt data true ::
      (if truthy_field new "data" then
         EvSetAttribute "srcset" (field new "data") (Some img)
         :: EvSetAttribute "sizes" (VStr "100vw") (Some img)
         :: (if truthy_field new "width"
             then [EvSetAttribute "width" (field new "width") (Some img)]
             else [])
       else [])
  ∧ st w' =
      (if truthy_field new "data"
       then with_view (<[img := img_after_set e new]> (view (st w)))
                      (consumed_state evt data w)
       else consumed_state evt data w).
Proof.
  intros Hnull new w'. subst new w'.
  unfold srcsetAttributeConverter_converter, img_after_set, truthy_field, field.
  unfold_api.
  rewrite (consume_success _ _ _ Havail). cbn.
  rewrite Himg, Hnull. cbn.
  destruct (get_prop (attributeNewValue data) "data") as [d|err] eqn:Hd; cbn.
  2:{ split; reflexivity. }
  destruct (truthy d) eqn:Ht; cbn.
  2:{ split; reflexivity. }
  rewrite Hview. cbn. rewrite lookup_insert_eq. cbn.
  destruct (get_prop (attributeNewValue data) "width") as [wd|err] eqn:Hw; cbn.
  - destruct (truthy wd) eqn:Htw; cbn.
    + rewrite lookup_insert_eq. cbn.
      rewrite !insert_insert_eq, <- !app_assoc. split; reflexivity.
    + rewrite !insert_insert_eq, <- !app_assoc. split; reflexivity.
  - rewrite !insert_insert_eq, <- !app_assoc. split; reflexivity.
Qed.

Lemma srcset_removal_run :
  is_null (attributeNewValue data) = true →
  let old := attributeOldValue data in
  let w' := (srcsetAttributeConverter_converter getImg evt data w).2 in
  journal w' =
    journal w ++ consume_event evt data true ::
      (if truthy_field old "data" then
         EvRemoveAttribute "srcset" (Some img)
         :: EvRemoveAttribute "sizes" (Some img)
         :: (if truthy_field old "width"
             then [EvRemoveAttribute "width" (Some img)]
             else [])
       else [])
  ∧ st w' =
      (if truthy_field old "data"
       then with_view (<[img := img_after_removal e old]> (view (st w)))
                      (consumed_state evt data w)
       else consumed_state evt data w).
Proof.
  intros Hnull old w'. subst old w'.
  unfold srcsetAttributeConverter_converter, img_after_removal, truthy_field, field.
  unfold_api.
  rewrite (consume_success _ _ _ Havail). cbn.
  rewrite Himg, Hnull. cbn.
  destruct (get_prop (attributeOldValue data) "data") as [d|err] eqn:Hd; cbn.
  2:{ split; reflexivity. }
  destruct (truthy d) eqn:Ht; cbn.
  2:{ split; reflexivity. }
  rewrite Hview. cbn. rewrite lookup_insert_eq. cbn.
  destruct (get_prop (attributeOldValue data) "width") as [wd|err] eqn:Hw; cbn.
  - destruct (truthy wd) eqn:Htw; cbn.
    + rewrite lookup_insert_eq. cbn.
      rewrite !insert_insert_eq, <- !app_assoc. split; reflexivity.
    + rewrite !insert_insert_eq, <- !app_assoc. split; reflexivity.
  - rewrite !insert_insert_eq, <- !app_assoc. split; reflexivity.
Qed.

Lemma mirror_run :
  modelToViewAttributeConverter_converter getImg evt data w
  = (Val tt,
     {| st := with_view
                (<[img := set_attr (attributeKey data)
                            (js_or (attributeNewValue data) (VStr "")) e]>
                   (view (st w)))
                (consumed_state evt data w);
        journal := journal w ++
          [consume_event evt data true;
           EvSetAttribute (attributeKey data)
             (js_or (attributeNewValue data) (VStr "")) (Some img)] |}).
Proof.
  unfold modelToViewAttributeConverter_converter. unfold_api.
  rewrite (consume_success _ _ _ Havail). cbn.
  rewrite Himg. cbn. rewrite Hview. cbn.
  by rewrite <- app_assoc.
Qed.

End Downcast.

Section DowncastAnyBranch.

Context {E : Type}.
Variable getImg : gmap Node ViewElement → option Node → Outcome (option Node).
Variables (evt : string) (data : DowncastData) (w : World E).
Hypothesis Havail : Gate.test (consumable (st w)) (item data) [FEvent evt] = true.

(** Whatever branch is taken and however it ends, the journal starts with
    the successful consume, only writer calls follow, and the feature stays
    consumed. *)
Lemma srcset_after_consume :
  let w' := (srcsetAttributeConverter_converter getImg evt data w).2 in
  ∃ rest,
    journal w' = journal w ++ EvConsume (item data) [FEvent evt] true :: rest
    ∧ forallb is_writer_call rest = true
    ∧ consumable (st w') = Gate.mark (item data) (FEvent evt) (consumable (st w)).
Proof.
  unfold srcsetAttributeConverter_converter. unfold_api.
  rewrite (consume_success _ _ _ Havail). cbn.
  split_branches; rewrite <- ?app_assoc; cbn;
    eexists; (split; [reflexivity | split; reflexivity]).
Qed.

Lemma mirror_after_consume :
  let w' := (modelToViewAttributeConverter_converter getImg evt data w).2 in
  ∃ rest,
    journal w' = journal w ++ EvConsume (item data) [FEvent evt] true :: rest
    ∧ forallb is_writer_call rest = true
    ∧ consumable (st w') = Gate.mark (item data) (FEvent evt) (consumable (st w)).
Proof.
  unfold modelToViewAttributeConverter_converter. unfold_api.
  rewrite (consume_success _ _ _ Havail). cbn.
  split_branches; rewrite <- ?app_assoc; cbn;
    eexists; (split; [reflexivity | split; reflexivity]).
Qed.

(** Without truthy [data] the converter stops right after the consume. *)
Lemma srcset_no_data :
  truthy_field (srcset_of data) "data" = false →
  (srcsetAttributeConverter_converter getImg evt data w).2
  = {| st := consumed_state evt data w;
       journal := journal w ++ [EvConsume (item data) [FEvent evt] true] |}.
Proof.
  unfold srcset_of, truthy_field, field, consumed_state.
  unfold srcsetAttributeConverter_converter. unfold_api.
  rewrite (consume_success _ _ _ Havail). cbn.
  intros Hno.
  destruct (getImg _ _) as [img|err]; cbn; [|reflexivity].
  destruct (is_null (attributeNewValue data)); cbn.
  - destruct (get_prop (attributeOldValue data) "data") as [d|?]; cbn; [|reflexivity].
    cbn in Hno. by rewrite Hno.
  - destruct (get_prop (attributeNewValue data) "data") as [d|?]; cbn; [|reflexivity].
    cbn in Hno. by rewrite Hno.
Qed.

End DowncastAnyBranch.

Lemma made_calls_of_journal {E A : Type} (h : M E A) (w : World E) (l : list Event) :
  journal (h w).2 = journal w ++ l → made_calls h w = l.
Proof. intros H. unfold made_calls. rewrite H. apply drop_app_length. Qed.

(** *** Setting and removing srcset *)

(** C3 (amended): on a srcset change with a non-null new value, whose event
    is still consumable and whose inner img exists, the converter sets srcset
    to [data] and sizes to [100vw] exactly when [data] is truthy, and then
    sets width exactly when [width] is truthy; otherwise it writes nothing. *)
Theorem srcset_set_follows_truthiness {E : Type}
    (getImg : gmap Node ViewElement → option Node → Outcome (option Node))
    (evt : string) (data : DowncastData) (w : World E) (img : Node) (e : ViewElement) :
  Gate.test (consumable (st w)) (item data) [FEvent evt] = true →
  getImg (view (st w)) (mapper (st w) !! item data) = Val (Some img) →
  view (st w) !! img = Some e →
  is_null (attributeNewValue data) = false →
  let new := attributeNewValue data in
  let run := srcsetAttributeConverter_converter getImg evt data in
  made_calls run w =
    EvConsume (item data) [FEvent evt] true ::
      (if truthy_field new "data" then
         EvSetAttribute "srcset" (field new "data") (Some img)
         :: EvSetAttribute "sizes" (VStr "100vw") (Some img)
         :: (if truthy_field new "width"
             then [EvSetAttribute "width" (field new "width") (Some img)]
             else [])
       else [])
  ∧ view (st (run w).2) =
      (if truthy_field new "data"
       then <[img := img_after_set e new]> (view (st w))
       else view (st w)).
Proof.
  intros Havail Himg Hview Hnull new run.
  destruct (srcset_set_run getImg evt data w img e Havail Himg Hview Hnull)
    as [Hj Hs].
  split.
  - apply made_calls_of_journal. exact Hj.
  - subst run. rewrite Hs. by destruct (truthy_field _ "data").
Qed.

(** C4 (amended): on a srcset change to [null], whose event is still
    consumable and whose inner img exists, the converter removes srcset and
    sizes exactly when the old value's [data] is truthy, and then removes
    width exactly when the old value's [width] is truthy; otherwise it
    removes nothing. *)
Theorem srcset_removal_follows_truthiness {E : Type}
    (getImg : gmap Node ViewElement → option Node → Outcome (option Node))
    (evt : string) (data : DowncastData) (w : World E) (img : Node) (e : ViewElement) :
  Gate.test (consumable (st w)) (item data) [FEvent evt] = true →
  getImg (view (st w)) (mapper (st w) !! item data) = Val (Some img) →
  view (st w) !! img = Some e →
  is_null (attributeNewValue data) = true →
  let old := attributeOldValue data in
  let run := srcsetAttributeConverter_converter getImg evt data in
  made_calls run w =
    EvConsume (item data) [FEvent evt] true ::
      (if truthy_field old "data" then
         EvRemoveAttribute "srcset" (Some img)
         :: EvRemoveAttribute "sizes" (Some img)
         :: (if truthy_field old "width"
             then [EvRemoveAttribute "width" (Some img)]
             else [])
       else [])
  ∧ view (st (run w).2) =
      (if truthy_field old "data"
       then <[img := img_after_removal e old]> (view (st w))
       else view (st w)).
Proof.
  intros Havail Himg Hview Hnull old run.
  destruct (srcset_removal_run getImg evt data w img e Havail Himg Hview Hnull)
    as [Hj Hs].
  split.
  - apply made_calls_of_journal. exact Hj.
  - subst run. rewrite Hs. by destruct (truthy_field _ "data").
Qed.

Lemma srcset_set_follows_truthiness_witness :
  let data := Sample.change VNull Sample.srcset_full in
  let run := srcsetAttributeConverter_converter
               Sample.getViewImgFromWidget Sample.srcset_event data in
  made_calls run Sample.world =
    [ EvConsume 1%positive [FEvent Sample.srcset_event] true;
      EvSetAttribute "srcset" (VStr "a 1x, b 2x") (Some 11%positive);
      EvSetAttribute "sizes" (VStr "100vw") (Some 11%positive);
      EvSetAttribute "width" (VStr "300") (Some 11%positive) ]
  ∧ view (st (run Sample.world).2) = Sample.view_with Sample.img_rendered.
Proof.
  intros data run.
  pose proof (srcset_set_follows_truthiness
                Sample.getViewImgFromWidget Sample.srcset_event data
                Sample.world 11%positive Sample.img
                eq_refl eq_refl eq_refl eq_refl) as H.
  destruct H as [Hcalls Hview].
  split.
  - exact Hcalls.
  - etransitivity; [exact Hview | vm_compute; reflexivity].
Defined.

(** C3, as stated, fails: a new value that has a [data] field holding the
    empty string gets nothing written, and a value whose [width] field holds
    the empty string gets srcset and sizes but no width. *)
Lemma srcset_set_has_field_counterexample :
  let empty_data := VObj [("data", VStr ""); ("width", VStr "300")] in
  let empty_width := VObj [("data", VStr "a 1x, b 2x"); ("width", VStr "")] in
  let run new := srcsetAttributeConverter_converter
                   Sample.getViewImgFromWidget Sample.srcset_event
                   (Sample.change VNull new) in
  (is_null empty_data = false ∧ has_field empty_data "data" = true
   ∧ made_calls (run empty_data) Sample.world =
       [EvConsume 1%positive [FEvent Sample.srcset_event] true]
   ∧ view (st (run empty_data Sample.world).2) = view (st Sample.world))
  ∧ (is_null empty_width = false ∧ has_field empty_width "width" = true
     ∧ made_calls (run empty_width) Sample.world =
         [ EvConsume 1%positive [FEvent Sample.srcset_event] true;
           EvSetAttribute "srcset" (VStr "a 1x, b 2x") (Some 11%positive);
           EvSetAttribute "sizes" (VStr "100vw") (Some 11%positive) ]).
Proof. vm_compute. repeat split; reflexivity. Qed.

Lemma srcset_removal_follows_truthiness_witness :
  let data := Sample.change Sample.srcset_full VNull in
  let run := srcsetAttributeConverter_converter
               Sample.getViewImgFromWidget Sample.srcset_event data in
  made_calls run Sample.world_rendered =
    [ EvConsume 1%positive [FEvent Sample.srcset_event] true;
      EvRemoveAttribute "srcset" (Some 11%positive);
      EvRemoveAttribute "sizes" (Some 11%positive);
      EvRemoveAttribute "width" (Some 11%positive) ]
  ∧ view (st (run Sample.world_rendered).2) = Sample.view_with Sample.img.
Proof.
  intros data run.
  pose proof (srcset_removal_follows_truthiness
                Sample.getViewImgFromWidget Sample.srcset_event data
                Sample.world_rendered 11%positive Sample.img_rendered
                eq_refl eq_refl eq_refl eq_refl) as H.
  destruct H as [Hcalls Hview].
  split.
  - exact Hcalls.
  - etransitivity; [exact Hview | vm_compute; reflexivity].
Defined.

(** C4, as stated, fails: an old value that has a [data] field holding the
    empty string gets nothing removed, and an old value whose [width] field
    holds the empty string keeps the view width. *)
Lemma srcset_removal_has_field_counterexample :
  let empty_data := VObj [("data", VStr ""); ("width", VStr "300")] in
  let empty_width := VObj [("data", VStr "a 1x, b 2x"); ("width", VStr "")] in
  let run old := srcsetAttributeConverter_converter
                   Sample.getViewImgFromWidget Sample.srcset_event
                   (Sample.change old VNull) in
  (has_field empty_data "data" = true
   ∧ made_calls (run empty_data) Sample.world_rendered =
       [EvConsume 1%positive [FEvent Sample.srcset_event] true]
   ∧ view (st (run empty_data Sample.world_rendered).2)
     = view (st Sample.world_rendered))
  ∧ (has_field empty_width "width" = true
     ∧ made_calls (run empty_width) Sample.world_rendered =
         [ EvConsume 1%positive [FEvent Sample.srcset_event] true;
           EvRemoveAttribute "srcset" (Some 11%positive);
           EvRemoveAttribute "sizes" (Some 11%positive) ]).
Proof. vm_compute. repeat split; reflexivity. Qed.

(** *** Round trip of the composite value *)

(** C1: for the model value [{ data: "a 1x, b 2x", width: "300" }] the
    downcast converter sets srcset, sizes = 100vw and width = 300 on the
    inner img, and the declared upcast srcset mapper, applied to the img so
    written or to an img carrying exactly those three attributes, gives the
    original value back. *)
Theorem srcset_round_trip {E : Type}
    (getImg : gmap Node ViewElement → option Node → Outcome (option Node))
    (evt : string) (data : DowncastData) (w : World E) (img : Node) (e : ViewElement) :
  Gate.test (consumable (st w)) (item data) [FEvent evt] = true →
  getImg (view (st w)) (mapper (st w) !! item data) = Val (Some img) →
  view (st w) !! img = Some e →
  attributeNewValue data = Sample.srcset_full →
  let run := srcsetAttributeConverter_converter getImg evt data in
  made_calls run w =
    [ EvConsume (item data) [FEvent evt] true;
      EvSetAttribute "srcset" (VStr "a 1x, b 2x") (Some img);
      EvSetAttribute "sizes" (VStr "100vw") (Some img);
      EvSetAttribute "width" (VStr "300") (Some img) ]
  ∧ (∃ e', view (st (run w).2) !! img = Some e'
           ∧ attrs e' = <["width" := VStr "300"]>
                          (<["sizes" := VStr "100vw"]>
                             (<["srcset" := VStr "a 1x, b 2x"]> (attrs e)))
           ∧ upcast_attribute "srcset" e' = Some Sample.srcset_full)
  ∧ upcast_attribute "srcset"
      {| name := "img";
         attrs := list_to_map [ ("srcset", VStr "a 1x, b 2x");
                                ("sizes", VStr "100vw"); ("width", VStr "300") ];
         classes := []; children := [] |}
    = Some Sample.srcset_full.
Proof.
  intros Havail Himg Hview Hnew run.
  assert (Hnull : is_null (attributeNewValue data) = false) by by rewrite Hnew.
  destruct (srcset_set_run getImg evt data w img e Havail Himg Hview Hnull)
    as [Hj Hs].
  rewrite Hnew in Hj, Hs.
  change (truthy_field Sample.srcset_full "data") with true in Hj, Hs.
  change (truthy_field Sample.srcset_full "width") with true in Hj.
  change (field Sample.srcset_full "data") with (VStr "a 1x, b 2x") in Hj.
  change (field Sample.srcset_full "width") with (VStr "300") in Hj.
  split; [by apply made_calls_of_journal|].
  split; [|by vm_compute].
  subst run. rewrite Hs.
  unfold with_view. cbn [view]. rewrite lookup_insert_eq.
  eexists. split; [reflexivity|].
  unfold img_after_set.
  change (truthy_field Sample.srcset_full "width") with true.
  change (field Sample.srcset_full "data") with (VStr "a 1x, b 2x").
  change (field Sample.srcset_full "width") with (VStr "300").
  cbn [set_attr attrs]. split; [reflexivity|].
  unfold upcast_attribute.
  change (declared_mapper "srcset")
    with (Some {| view_name := "img"; view_key := "srcset";
                  model_key := "srcset"; model_value := Some srcset_value |}).
  cbn [fmap option_fmap option_map upcast_value model_value].
  unfold srcset_value, hasAttribute, getAttribute. cbn [set_attr attrs].
  rewrite lookup_insert_eq.
  rewrite lookup_insert_ne by done.
  rewrite lookup_insert_ne by done.
  rewrite lookup_insert_eq. cbn [default].
  rewrite bool_decide_eq_true_2 by eauto.
  reflexivity.
Qed.

Lemma srcset_round_trip_witness :
  let run := srcsetAttributeConverter_converter
               Sample.getViewImgFromWidget Sample.srcset_event
               (Sample.change VNull Sample.srcset_full) in
  made_calls run Sample.world =
    [ EvConsume 1%positive [FEvent Sample.srcset_event] true;
      EvSetAttribute "srcset" (VStr "a 1x, b 2x") (Some 11%positive);
      EvSetAttribute "sizes" (VStr "100vw") (Some 11%positive);
      EvSetAttribute "width" (VStr "300") (Some 11%positive) ]
  ∧ (upcast_attribute "srcset" <$> view (st (run Sample.world).2) !! 11%positive)
    = Some (Some Sample.srcset_full).
Proof.
  intros run.
  pose proof (srcset_round_trip
                Sample.getViewImgFromWidget Sample.srcset_event
                (Sample.change VNull Sample.srcset_full)
                Sample.world 11%positive Sample.img
                eq_refl eq_refl eq_refl eq_refl) as H.
  destruct H as (Hcalls & (e' & Hlook & _ & Hup) & _).
  split.
  - exact Hcalls.
  - subst run. cbv zeta in Hlook.
    transitivity (upcast_attribute "srcset" <$> Some e');
      [exact (f_equal (fmap (upcast_attribute "srcset")) Hlook)|].
    cbn [fmap option_fmap option_map]. by rewrite Hup.
Defined.

(** *** The generic attribute mirror *)

(** C5: when the event is still consumable, a [null] new value makes the
    mirror converter set the view attribute to the empty string on the inner
    img; no attribute is removed. *)
Theorem mirror_null_sets_empty_string {E : Type}
    (getImg : gmap Node ViewElement → option Node → Outcome (option Node))
    (evt : string) (data : DowncastData) (w : World E) (img : Node) (e : ViewElement) :
  Gate.test (consumable (st w)) (item data) [FEvent evt] = true →
  getImg (view (st w)) (mapper (st w) !! item data) = Val (Some img) →
  view (st w) !! img = Some e →
  attributeNewValue data = VNull →
  let run := modelToViewAttributeConverter_converter getImg evt data in
  (run w).1 = Val tt
  ∧ made_calls run w =
      [ EvConsume (item data) [FEvent evt] true;
        EvSetAttribute (attributeKey data) (VStr "") (Some img) ]
  ∧ forallb (fun ev => negb (is_remove_attribute ev)) (made_calls run w) = true
  ∧ view (st (run w).2) = <[img := set_attr (attributeKey data) (VStr "") e]> (view (st w))
  ∧ attrs (set_attr (attributeKey data) (VStr "") e) !! attributeKey data = Some (VStr "").
Proof.
  intros Havail Himg Hview Hnew run.
  pose proof (mirror_run getImg evt data w img e Havail Himg Hview) as Hrun.
  rewrite Hnew in Hrun. change (js_or VNull (VStr "")) with (VStr "") in Hrun.
  assert (Hcalls : made_calls run w =
      [ EvConsume (item data) [FEvent evt] true;
        EvSetAttribute (attributeKey data) (VStr "") (Some img) ]).
  { apply made_calls_of_journal. subst run. by rewrite Hrun. }
  split; [subst run; by rewrite Hrun|].
  split; [exact Hcalls|].
  split; [by rewrite Hcalls|].
  split; [subst run; by rewrite Hrun|].
  cbn [set_attr attrs]. apply lookup_insert_eq.
Qed.

Lemma mirror_null_sets_empty_string_witness :
  let data := {| item := 1%positive; attributeKey := "alt";
                 attributeOldValue := VStr "a cat"; attributeNewValue := VNull |} in
  let run := modelToViewAttributeConverter_converter
               Sample.getViewImgFromWidget Sample.alt_event data in
  made_calls run Sample.world =
    [ EvConsume 1%positive [FEvent Sample.alt_event] true;
      EvSetAttribute "alt" (VStr "") (Some 11%positive) ]
  ∧ (fun e => getAttribute e "alt") <$> view (st (run Sample.world).2) !! 11%positive
    = Some (VStr "").
Proof.
  intros data run.
  pose proof (mirror_null_sets_empty_string
                Sample.getViewImgFromWidget Sample.alt_event data
                Sample.world 11%positive Sample.img
                eq_refl eq_refl eq_refl eq_refl) as H.
  destruct H as (_ & Hcalls & _ & _ & _).
  split.
  - exact Hcalls.
  - vm_compute. reflexivity.
Defined.




(** *** Consumption on the branches that write nothing *)

(** C9: the srcset converter consumes the event before it looks at the
    value.  When the value it inspects has no truthy [data], the only call
    made is the successful consume, the view is untouched, the feature is
    consumed afterwards, and a later converter for the same event (the srcset
    converter again, or the generic mirror) declines without acting. *)
Theorem srcset_consumes_without_writing {E : Type}
    (getImg : gmap Node ViewElement → option Node → Outcome (option Node))
    (evt : string) (data : DowncastData) (w : World E) :
  Gate.test (consumable (st w)) (item data) [FEvent evt] = true →
  truthy_field (srcset_of data) "data" = false →
  let run := srcsetAttributeConverter_converter getImg evt data in
  let w' := (run w).2 in
  made_calls run w = [EvConsume (item data) [FEvent evt] true]
  ∧ view (st w') = view (st w)
  ∧ consumable (st w') !! (item data, FEvent evt) = Some false
  ∧ Gate.test (consumable (st w')) (item data) [FEvent evt] = false
  ∧ ∀ getImg' data', item data' = item data →
      srcsetAttributeConverter_converter getImg' evt data' w'
      = (Val tt, {| st := st w';
                    journal := journal w' ++ [EvConsume (item data) [FEvent evt] false] |})
      ∧ modelToViewAttributeConverter_converter getImg' evt data' w'
        = (Val tt, {| st := st w';
                      journal := journal w' ++ [EvConsume (item data) [FEvent evt] false] |}).
Proof.
  intros Havail Hno run w'.
  pose proof (srcset_no_data getImg evt data w Havail Hno) as Hrun.
  fold run in Hrun. fold w' in Hrun.
  assert (Hlook : consumable (st w') !! (item data, FEvent evt) = Some false).
  { rewrite Hrun. cbn. unfold Gate.mark. apply lookup_insert_eq. }
  assert (Htest : Gate.test (consumable (st w')) (item data) [FEvent evt] = false).
  { apply (test_false_of_consumed _ _ _ (FEvent evt)); [apply list_elem_of_here | exact Hlook]. }
  split; [apply made_calls_of_journal; fold w'; by rewrite Hrun|].
  split; [by rewrite Hrun|].
  split; [exact Hlook|].
  split; [exact Htest|].
  intros getImg' data' Hitem. rewrite <- Hitem in Htest. split.
  - rewrite (srcset_declined getImg' evt data' w' Htest).
    unfold consume_event. by rewrite Hitem.
  - rewrite (mirror_declined getImg' evt data' w' Htest).
    unfold consume_event. by rewrite Hitem.
Qed.

Lemma srcset_consumes_without_writing_witness :
  let data := Sample.change VNull (VObj [("width", VStr "300")]) in
  let run := srcsetAttributeConverter_converter
               Sample.getViewImgFromWidget Sample.srcset_event data in
  made_calls run Sample.world = [EvConsume 1%positive [FEvent Sample.srcset_event] true]
  ∧ view (st (run Sample.world).2) = view (st Sample.world)
  ∧ consumable (st (run Sample.world).2) !! (1%positive, FEvent Sample.srcset_event)
    = Some false.
Proof.
  intros data run.
  pose proof (srcset_consumes_without_writing
                Sample.getViewImgFromWidget Sample.srcset_event data Sample.world
                eq_refl eq_refl) as H.
  destruct H as (Hcalls & Hview & Hlook & _).
  split; [exact Hcalls | split; [exact Hview | exact Hlook]].
Defined.

(** ** The element converter *)

Section Upcast.

Context {E : Type}.
Variable getImg : gmap Node ViewElement → option Node → Outcome (option Node).
Variable convertItem : Node → Position → State E → Outcome ConversionResult * State E.
Variable convertChildren : Node → Node → State E → Outcome unit * State E.
Variable updateConversionResult : Node → UpcastData → State E → Outcome unit * State E.
Variables (data : UpcastData) (w : World E).

Lemma figure_not_image_figure :
  Gate.test (consumable (st w)) (viewItem data) figure_guard = false →
  figure_run getImg convertItem convertChildren updateConversionResult data w
  = (Val tt, {| st := st w;
                journal := journal w ++ [EvTest (viewItem data) figure_guard false] |}).
Proof.
  intros H. unfold figure_run, viewFigureToModel_converter. unfold_api.
  by rewrite H.
Qed.

Lemma figure_no_image :
  Gate.test (consumable (st w)) (viewItem data) figure_guard = true →
  getImg (view (st w)) (Some (viewItem data)) = Val None →
  figure_run getImg convertItem convertChildren updateConversionResult data w
  = (Val tt, {| st := st w;
                journal := journal w ++ [EvTest (viewItem data) figure_guard true] |}).
Proof.
  intros H Hn. unfold figure_run, viewFigureToModel_converter. unfold_api.
  rewrite H. cbn. by rewrite Hn.
Qed.

Lemma figure_image_unusable (img : Node) (e : ViewElement) :
  Gate.test (consumable (st w)) (viewItem data) figure_guard = true →
  getImg (view (st w)) (Some (viewItem data)) = Val (Some img) →
  view (st w) !! img = Some e →
  hasAttribute e "src" = false ∨ Gate.test (consumable (st w)) img [FName] = false →
  ∃ tests,
    figure_run getImg convertItem convertChildren updateConversionResult data w
    = (Val tt, {| st := st w; journal := journal w ++ tests |})
    ∧ forallb is_test tests = true.
Proof.
  intros H Hi Hv Hbad. unfold figure_run, viewFigureToModel_converter. unfold_api.
  rewrite H. cbn. rewrite Hi. cbn. rewrite Hv. cbn.
  destruct (hasAttribute e "src") eqn:Hsrc; cbn.
  - destruct Hbad as [?|Hc]; [done|]. rewrite Hc. cbn.
    rewrite <- app_assoc. by eexists.
  - by eexists.
Qed.

Lemma figure_item_not_converted (img : Node) (e : ViewElement)
    (r : ConversionResult) (s' : State E) :
  Gate.test (consumable (st w)) (viewItem data) figure_guard = true →
  getImg (view (st w)) (Some (viewItem data)) = Val (Some img) →
  view (st w) !! img = Some e →
  hasAttribute e "src" = true →
  Gate.test (consumable (st w)) img [FName] = true →
  convertItem img (modelCursor data) (st w) = (Val r, s') →
  first (modelRange r) = None →
  figure_run getImg convertItem convertChildren updateConversionResult data w
  = (Val tt,
     {| st := s';
        journal := journal w ++
          [ EvTest (viewItem data) figure_guard true;
            EvTest img [FName] true;
            EvConvertItem img (modelCursor data) ] |}).
Proof.
  intros H Hi Hv Hsrc Hc Hconv Hfirst.
  unfold figure_run, viewFigureToModel_converter. unfold_api.
  rewrite H. cbn. rewrite Hi. cbn. rewrite Hv. cbn. rewrite Hsrc. cbn.
  rewrite Hc. cbn. rewrite Hconv. cbn. rewrite Hfirst.
  by rewrite <- !app_assoc.
Qed.

End Upcast.

(** C2: a figure that fails the name-and-class [image] test, or whose inner
    img is absent, has no [src], or has its name already consumed, makes the
    element converter return with the state (consumable, view, model)
    untouched; the only calls made are consumable tests. *)
Theorem figure_declines_without_effect {E : Type}
    (getImg : gmap Node ViewElement → option Node → Outcome (option Node))
    (convertItem : Node → Position → State E → Outcome ConversionResult * State E)
    (convertChildren : Node → Node → State E → Outcome unit * State E)
    (updateConversionResult : Node → UpcastData → State E → Outcome unit * State E)
    (data : UpcastData) (w : World E) :
  ( Gate.test (consumable (st w)) (viewItem data) figure_guard = false
    ∨ getImg (view (st w)) (Some (viewItem data)) = Val None
    ∨ ∃ img e,
        getImg (view (st w)) (Some (viewItem data)) = Val (Some img)
        ∧ view (st w) !! img = Some e
        ∧ (hasAttribute e "src" = false
           ∨ Gate.test (consumable (st w)) img [FName] = false) ) →
  let run := figure_run getImg convertItem convertChildren updateConversionResult data in
  (run w).1 = Val tt
  ∧ st (run w).2 = st w
  ∧ forallb is_test (made_calls run w) = true.
Proof.
  intros Hdecline run.
  destruct (Gate.test (consumable (st w)) (viewItem data) figure_guard) eqn:Hguard.
  - destruct Hdecline as [?|[Hnone|(img & e & Hi & Hv & Hbad)]]; [done| |].
    + pose proof (figure_no_image getImg convertItem convertChildren
                    updateConversionResult data w Hguard Hnone) as Hrun.
      fold run in Hrun. split; [by rewrite Hrun|]. split; [by rewrite Hrun|].
      rewrite (made_calls_of_journal run w [EvTest (viewItem data) figure_guard true]);
        [done | by rewrite Hrun].
    + destruct (figure_image_unusable getImg convertItem convertChildren
                  updateConversionResult data w img e Hguard Hi Hv Hbad)
        as (tests & Hrun & Htests).
      fold run in Hrun. split; [by rewrite Hrun|]. split; [by rewrite Hrun|].
      rewrite (made_calls_of_journal run w tests); [done | by rewrite Hrun].
  - pose proof (figure_not_image_figure getImg convertItem convertChildren
                  updateConversionResult data w Hguard) as Hrun.
    fold run in Hrun. split; [by rewrite Hrun|]. split; [by rewrite Hrun|].
    rewrite (made_calls_of_journal run w [EvTest (viewItem data) figure_guard false]);
      [done | by rewrite Hrun].
Qed.

Lemma figure_declines_without_effect_witness :
  let run := figure_run Sample.getViewImgFromWidget Sample.convertItem
               Sample.convertChildren Sample.updateConversionResult
               Sample.figure_event in
  (run Sample.world_no_src).1 = Val tt
  ∧ st (run Sample.world_no_src).2 = st Sample.world_no_src
  ∧ forallb is_test (made_calls run Sample.world_no_src) = true.
Proof.
  apply (figure_declines_without_effect
           Sample.getViewImgFromWidget Sample.convertItem
           Sample.convertChildren Sample.updateConversionResult
           Sample.figure_event Sample.world_no_src).
  right. right. exists 11%positive, Sample.img_no_src.
  vm_compute. repeat split; try reflexivity. left. reflexivity.
Defined.

(** C6: when the guards pass but [convertItem] produces no model node, the
    element converter returns right after it: children are not converted, no
    result is reported, the converter consumes nothing, and the state is the
    one [convertItem] left, so a figure guard that is still consumable there
    is still consumable when the converter returns. *)
Theorem figure_declines_when_item_not_converted {E : Type}
    (getImg : gmap Node ViewElement → option Node → Outcome (option Node))
    (convertItem : Node → Position → State E → Outcome ConversionResult * State E)
    (convertChildren : Node → Node → State E → Outcome unit * State E)
    (updateConversionResult : Node → UpcastData → State E → Outcome unit * State E)
    (data : UpcastData) (w : World E) (img : Node) (e : ViewElement)
    (r : ConversionResult) (s' : State E) :
  Gate.test (consumable (st w)) (viewItem data) figure_guard = true →
  getImg (view (st w)) (Some (viewItem data)) = Val (Some img) →
  view (st w) !! img = Some e →
  hasAttribute e "src" = true →
  Gate.test (consumable (st w)) img [FName] = true →
  convertItem img (modelCursor data) (st w) = (Val r, s') →
  first (modelRange r) = None →
  let run := figure_run getImg convertItem convertChildren updateConversionResult data in
  (run w).1 = Val tt
  ∧ made_calls run w =
      [ EvTest (viewItem data) figure_guard true;
        EvTest img [FName] true;
        EvConvertItem img (modelCursor data) ]
  ∧ forallb (fun ev => negb (is_consume ev)) (made_calls run w) = true
  ∧ st (run w).2 = s'
  ∧ (Gate.test (consumable s') (viewItem data) figure_guard = true →
     Gate.test (consumable (st (run w).2)) (viewItem data) figure_guard = true).
Proof.
  intros Hguard Hi Hv Hsrc Hc Hconv Hfirst run.
  pose proof (figure_item_not_converted getImg convertItem convertChildren
                updateConversionResult data w img e r s'
                Hguard Hi Hv Hsrc Hc Hconv Hfirst) as Hrun.
  fold run in Hrun.
  assert (Hcalls : made_calls run w =
      [ EvTest (viewItem data) figure_guard true;
        EvTest img [FName] true;
        EvConvertItem img (modelCursor data) ]).
  { apply made_calls_of_journal. by rewrite Hrun. }
  split; [by rewrite Hrun|].
  split; [exact Hcalls|].
  split; [by rewrite Hcalls|].
  split; by rewrite Hrun.
Qed.

Lemma figure_declines_when_item_not_converted_witness :
  let run := figure_run Sample.getViewImgFromWidget Sample.convertItem_nothing
               Sample.convertChildren Sample.updateConversionResult
               Sample.figure_event in
  made_calls run Sample.world =
    [ EvTest 10%positive figure_guard true;
      EvTest 11%positive [FName] true;
      EvConvertItem 11%positive [0] ]
  ∧ st (run Sample.world).2 = st Sample.world
  ∧ Gate.test (consumable (st (run Sample.world).2)) 10%positive figure_guard = true.
Proof.
  intros run.
  pose proof (figure_declines_when_item_not_converted
                Sample.getViewImgFromWidget Sample.convertItem_nothing
                Sample.convertChildren Sample.updateConversionResult
                Sample.figure_event Sample.world 11%positive Sample.img
                {| modelRange := []; resultCursor := [0] |} (st Sample.world)
                eq_refl eq_refl eq_refl eq_refl eq_refl eq_refl eq_refl) as H.
  destruct H as (_ & Hcalls & _ & Hst & Hkeep).
  split; [exact Hcalls | split; [exact Hst | apply Hkeep; reflexivity]].
Defined.

(** ** Call order of the converters *)

Lemma figure_trace_no_consume v cursor calls :
  figure_trace v cursor calls →
  forallb (fun ev => negb (is_consume ev)) calls = true ∧ tested_first calls = true.
Proof.
  intros H. destruct H as [| | |img rest Hrest]; try done.
  by destruct Hrest.
Qed.

Lemma attribute_trace_consume_first i evt calls :
  attribute_trace i evt calls →
  (is_consume <$> head calls) = Some true ∧ forallb (fun ev => negb (is_test ev)) calls = true.
Proof.
  intros H. destruct H as [|rest Hrest]; [done|].
  split; [done|]. cbn.
  induction rest as [|ev rest IH]; [done|].
  cbn in Hrest. apply andb_true_iff in Hrest as [Hev Hrest].
  cbn. rewrite (IH Hrest), andb_true_r.
  by destruct ev.
Qed.

Section Traces.

Context {E : Type}.
Variable getImg : gmap Node ViewElement → option Node → Outcome (option Node).
Variable convertItem : Node → Position → State E → Outcome ConversionResult * State E.
Variable convertChildren : Node → Node → State E → Outcome unit * State E.
Variable updateConversionResult : Node → UpcastData → State E → Outcome unit * State E.
Variable w : World E.

Lemma figure_run_trace (data : UpcastData) :
  figure_trace (viewItem data) (modelCursor data)
    (made_calls (figure_run getImg convertItem convertChildren
                   updateConversionResult data) w).
Proof.
  assert (∃ calls,
    journal (figure_run getImg convertItem convertChildren
               updateConversionResult data w).2 = journal w ++ calls
    ∧ figure_trace (viewItem data) (modelCursor data) calls) as (calls & Hj & Ht).
  { unfold figure_run, viewFigureToModel_converter. unfold_api.
    split_branches; rewrite <- ?app_assoc; cbn;
      repeat match goal with
             | H : negb ?b = _ |- _ => destruct b; cbn in H; try discriminate H; clear H
             end;
      eexists; (split; [reflexivity | eauto using figure_trace, engine_calls]). }
  by rewrite (made_calls_of_journal _ _ _ Hj).
Qed.

Lemma srcset_run_trace (evt : string) (data : DowncastData) :
  attribute_trace (item data) evt
    (made_calls (srcsetAttributeConverter_converter getImg evt data) w).
Proof.
  destruct (Gate.test (consumable (st w)) (item data) [FEvent evt]) eqn:Havail.
  - destruct (srcset_after_consume getImg evt data w Havail) as (rest & Hj & Hw & _).
    rewrite (made_calls_of_journal _ _ _ Hj). by constructor.
  - rewrite (made_calls_of_journal _ w [EvConsume (item data) [FEvent evt] false]).
    + constructor.
    + by rewrite srcset_declined.
Qed.

Lemma mirror_run_trace (evt : string) (data : DowncastData) :
  attribute_trace (item data) evt
    (made_calls (modelToViewAttributeConverter_converter getImg evt data) w).
Proof.
  destruct (Gate.test (consumable (st w)) (item data) [FEvent evt]) eqn:Havail.
  - destruct (mirror_after_consume getImg evt data w Havail) as (rest & Hj & Hw & _).
    rewrite (made_calls_of_journal _ _ _ Hj). by constructor.
  - rewrite (made_calls_of_journal _ w [EvConsume (item data) [FEvent evt] false]).
    + constructor.
    + by rewrite mirror_declined.
Qed.

End Traces.

(** C7, as stated, fails: on a srcset change whose value has no [data] the
    srcset converter calls [consume] with no [test] before it and no output
    mutation after it. *)
Lemma lock_discipline_counterexample :
  let calls :=
    made_calls (srcsetAttributeConverter_converter
                  Sample.getViewImgFromWidget Sample.srcset_event
                  (Sample.change VNull (VObj [("width", VStr "300")])))
               Sample.world in
  calls = [EvConsume 1%positive [FEvent Sample.srcset_event] true]
  ∧ tested_first calls = false
  ∧ consume_precedes_mutation calls = false
  ∧ lock_discipline calls = false.
Proof. vm_compute. repeat split; reflexivity. Qed.

(** C7 (amended): the element converter makes only [test] calls until both
    of its guards have passed, delegates to the engine after that, and never
    calls [consume]; the two attribute converters call [consume] first, with
    no [test] before it, and call the writer only after that consume has
    succeeded. *)
Theorem converters_gate_order {E : Type}
    (getImg : gmap Node ViewElement → option Node → Outcome (option Node))
    (convertItem : Node → Position → State E → Outcome ConversionResult * State E)
    (convertChildren : Node → Node → State E → Outcome unit * State E)
    (updateConversionResult : Node → UpcastData → State E → Outcome unit * State E)
    (up : UpcastData) (evt : string) (down : DowncastData) (w : World E) :
  let figure := figure_run getImg convertItem convertChildren updateConversionResult up in
  let srcset := srcsetAttributeConverter_converter getImg evt down in
  let mirror := modelToViewAttributeConverter_converter getImg evt down in
  (figure_trace (viewItem up) (modelCursor up) (made_calls figure w)
   ∧ tested_first (made_calls figure w) = true
   ∧ forallb (fun ev => negb (is_consume ev)) (made_calls figure w) = true)
  ∧ (attribute_trace (item down) evt (made_calls srcset w)
     ∧ (is_consume <$> head (made_calls srcset w)) = Some true
     ∧ forallb (fun ev => negb (is_test ev)) (made_calls srcset w) = true)
  ∧ (attribute_trace (item down) evt (made_calls mirror w)
     ∧ (is_consume <$> head (made_calls mirror w)) = Some true
     ∧ forallb (fun ev => negb (is_test ev)) (made_calls mirror w) = true).
Proof.
  intros figure srcset mirror.
  pose proof (figure_run_trace getImg convertItem convertChildren
                updateConversionResult w up) as Hf.
  pose proof (srcset_run_trace getImg w evt down) as Hs.
  pose proof (mirror_run_trace getImg w evt down) as Hm.
  destruct (figure_trace_no_consume _ _ _ Hf) as [Hf1 Hf2].
  destruct (attribute_trace_consume_first _ _ _ Hs) as [Hs1 Hs2].
  destruct (attribute_trace_consume_first _ _ _ Hm) as [Hm1 Hm2].
  done.
Qed.

(** ** Further properties of the element converter *)

Section UpcastPaths.

Context {E : Type}.
Variable getImg : gmap Node ViewElement → option Node → Outcome (option Node).
Variable convertItem : Node → Position → State E → Outcome ConversionResult * State E.
Variable convertChildren : Node → Node → State E → Outcome unit * State E.
Variable updateConversionResult : Node → UpcastData → State E → Outcome unit * State E.
Variables (data : UpcastData) (w : World E) (img : Node) (e : ViewElement).

Hypothesis Hguard : Gate.test (consumable (st w)) (viewItem data) figure_guard = true.
Hypothesis Himg : getImg (view (st w)) (Some (viewItem data)) = Val (Some img).
Hypothesis Hview : view (st w) !! img = Some e.
Hypothesis Hsrc : hasAttribute e "src" = true.
Hypothesis Hfree : Gate.test (consumable (st w)) img [FName] = true.

(** Past the guards the converter is [convertItem] and what follows it. *)
Lemma figure_past_guards :
  figure_run getImg convertItem convertChildren updateConversionResult data w
  = (let* conversionResult :=
       call (EvConvertItem img (modelCursor data))
            (convertItem img (modelCursor data)) in
     match first (modelRange conversionResult) with
     | None => ret tt
     | Some modelImage =>
         do call (EvConvertChildren (viewItem data) modelImage)
                 (convertChildren (viewItem data) modelImage)
         then call (EvUpdateConversionResult modelImage)
                   (updateConversionResult modelImage data)
     end)
      {| st := st w;
         journal := journal w ++
           [EvTest (viewItem data) figure_guard true; EvTest img [FName] true] |}.
Proof.
  unfold figure_run, viewFigureToModel_converter. unfold_api.
  rewrite Hguard. cbn. rewrite Himg. cbn. rewrite Hview. cbn. rewrite Hsrc. cbn.
  rewrite Hfree. cbn. rewrite <- !app_assoc. reflexivity.
Qed.

Lemma figure_success_run (r : ConversionResult) (m : Node) (s1 s2 s3 : State E)
    (o : Outcome unit) :
  convertItem img (modelCursor data) (st w) = (Val r, s1) →
  first (modelRange r) = Some m →
  convertChildren (viewItem data) m s1 = (Val tt, s2) →
  updateConversionResult m data s2 = (o, s3) →
  figure_run getImg convertItem convertChildren updateConversionResult data w
  = (o, {| st := s3;
           journal := journal w ++
             [ EvTest (viewItem data) figure_guard true;
               EvTest img [FName] true;
               EvConvertItem img (modelCursor data);
               EvConvertChildren (viewItem data) m;
               EvUpdateConversionResult m ] |}).
Proof.
  intros Hci Hfirst Hcc Hup. rewrite figure_past_guards. unfold_api.
  rewrite Hci. cbn. rewrite Hfirst. cbn. rewrite Hcc. cbn. rewrite Hup. cbn.
  by rewrite <- !app_assoc.
Qed.

Lemma figure_item_throws_run (err : string) (s1 : State E) :
  convertItem img (modelCursor data) (st w) = (Throw err, s1) →
  figure_run getImg convertItem convertChildren updateConversionResult data w
  = (Throw err,
     {| st := s1;
        journal := journal w ++
          [ EvTest (viewItem data) figure_guard true;
            EvTest img [FName] true;
            EvConvertItem img (modelCursor data) ] |}).
Proof.
  intros Hci. rewrite figure_past_guards. unfold_api.
  rewrite Hci. cbn. by rewrite <- !app_assoc.
Qed.

Lemma figure_children_throw_run (r : ConversionResult) (m : Node) (s1 s2 : State E)
    (err : string) :
  convertItem img (modelCursor data) (st w) = (Val r, s1) →
  first (modelRange r) = Some m →
  convertChildren (viewItem data) m s1 = (Throw err, s2) →
  figure_run getImg convertItem convertChildren updateConversionResult data w
  = (Throw err,
     {| st := s2;
        journal := journal w ++
          [ EvTest (viewItem data) figure_guard true;
            EvTest img [FName] true;
            EvConvertItem img (modelCursor data);
            EvConvertChildren (viewItem data) m ] |}).
Proof.
  intros Hci Hfirst Hcc. rewrite figure_past_guards. unfold_api.
  rewrite Hci. cbn. rewrite Hfirst. cbn. rewrite Hcc. cbn.
  by rewrite <- !app_assoc.
Qed.

End UpcastPaths.

(** ** Rules for [preserves] *)

Section PreservesRules.

Context {E : Type}.
Variable R : State E → State E → Prop.
Hypothesis R_refl : ∀ s, R s s.
Hypothesis R_trans : ∀ s1 s2 s3, R s1 s2 → R s2 s3 → R s1 s3.

Lemma preserves_ret {A : Type} (a : A) : preserves R (ret a).
Proof. intros w. apply R_refl. Qed.

Lemma preserves_lift {A : Type} (o : Outcome A) : preserves R (lift o).
Proof. intros w. apply R_refl. Qed.

Lemma preserves_bind {A B : Type} (m : M E A) (k : A → M E B) :
  preserves R m → (∀ a, preserves R (k a)) → preserves R (bind m k).
Proof.
  intros Hm Hk w. unfold bind.
  pose proof (Hm w) as H1.
  destruct (m w) as [[a|err] w1]; cbn in H1 |- *; [|exact H1].
  apply (R_trans _ (st w1)); [exact H1 | apply Hk].
Qed.

Lemma preserves_test (n : Node) (fs : list Feature) :
  preserves R (consumable_test n fs).
Proof. intros w. apply R_refl. Qed.

Lemma preserves_toViewElement (i : Node) : preserves R (mapper_toViewElement i).
Proof. intros w. apply R_refl. Qed.

Lemma preserves_locate getImg (element : option Node) :
  preserves R (locate getImg element).
Proof. intros w. apply R_refl. Qed.

Lemma preserves_hasAttribute (n : Node) (k : string) :
  preserves R (element_hasAttribute n k).
Proof.
  intros w. unfold element_hasAttribute.
  destruct (view (st w) !! n); apply R_refl.
Qed.

Lemma preserves_call {A : Type} (ev : Event) (f : State E → Outcome A * State E) :
  (∀ s, R s (f s).2) → preserves R (call ev f).
Proof. intros Hf w. apply Hf. Qed.

End PreservesRules.

(** X1: the element converter changes the state only through the engine.
    Any property of the state that [convertItem], [convertChildren] and
    [updateConversionResult] keep is kept by the converter, on every path and
    whether it returns or throws. *)
Theorem figure_keeps_engine_invariant {E : Type}
    (getImg : gmap Node ViewElement → option Node → Outcome (option Node))
    (convertItem : Node → Position → State E → Outcome ConversionResult * State E)
    (convertChildren : Node → Node → State E → Outcome unit * State E)
    (updateConversionResult : Node → UpcastData → State E → Outcome unit * State E)
    (P : State E → Prop) (data : UpcastData) (w : World E) :
  (∀ v c s, P s → P (convertItem v c s).2) →
  (∀ v m s, P s → P (convertChildren v m s).2) →
  (∀ m d s, P s → P (updateConversionResult m d s).2) →
  P (st w) →
  P (st (figure_run getImg convertItem convertChildren updateConversionResult data w).2).
Proof.
  intros Hci Hcc Hup.
  assert (Hrefl : ∀ s, keeps P s s) by (intros s; exact id).
  assert (Htrans : ∀ s1 s2 s3, keeps P s1 s2 → keeps P s2 s3 → keeps P s1 s3)
    by (unfold keeps; eauto).
  enough (preserves (keeps P)
            (figure_run getImg convertItem convertChildren updateConversionResult data))
    as H by exact (H w).
  unfold figure_run, viewFigureToModel_converter.
  apply (preserves_bind _ Htrans); [apply (preserves_test _ Hrefl)|].
  intros [|]; cbn [negb]; [|apply (preserves_ret _ Hrefl)].
  apply (preserves_bind _ Htrans); [apply (preserves_locate _ Hrefl)|].
  intros [img|]; [|apply (preserves_ret _ Hrefl)].
  apply (preserves_bind _ Htrans); [apply (preserves_hasAttribute _ Hrefl)|].
  intros [|]; cbn [negb]; [|apply (preserves_ret _ Hrefl)].
  apply (preserves_bind _ Htrans); [apply (preserves_test _ Hrefl)|].
  intros [|]; cbn [negb]; [|apply (preserves_ret _ Hrefl)].
  apply (preserves_bind _ Htrans).
  { apply preserves_call. intros s. exact (Hci _ _ s). }
  intros r. destruct (first (modelRange r)) as [m|]; [|apply (preserves_ret _ Hrefl)].
  apply (preserves_bind _ Htrans).
  { apply preserves_call. intros s. exact (Hcc _ _ s). }
  intros _. apply preserves_call. intros s. exact (Hup _ _ s).
Qed.

Lemma figure_keeps_engine_invariant_witness :
  consumable
    (st (figure_run Sample.getViewImgFromWidget Sample.convertItem
           Sample.convertChildren Sample.updateConversionResult
           Sample.figure_event Sample.world).2)
    !! (10%positive, FClass "image") = Some true.
Proof.
  apply (figure_keeps_engine_invariant
           Sample.getViewImgFromWidget Sample.convertItem
           Sample.convertChildren Sample.updateConversionResult
           (fun s => consumable s !! (10%positive, FClass "image") = Some true)
           Sample.figure_event Sample.world).
  - intros v c s Hs. unfold Sample.convertItem, with_consumable, Gate.mark.
    cbn [snd consumable]. rewrite lookup_insert_ne by discriminate. exact Hs.
  - intros v m s Hs. exact Hs.
  - intros m d s Hs. exact Hs.
  - vm_compute. reflexivity.
Defined.

(** X2: on the converting path (both guards pass, [convertItem] yields a
    first item) the converter converts the figure's children into that first
    item and then reports that same item with the event's own [data]; the
    state is threaded through the three engine calls in this order and the
    outcome is the one of [updateConversionResult]. *)
Theorem figure_converts_into_first_item {E : Type}
    (getImg : gmap Node ViewElement → option Node → Outcome (option Node))
    (convertItem : Node → Position → State E → Outcome ConversionResult * State E)
    (convertChildren : Node → Node → State E → Outcome unit * State E)
    (updateConversionResult : Node → UpcastData → State E → Outcome unit * State E)
    (data : UpcastData) (w : World E) (img : Node) (e : ViewElement)
    (r : ConversionResult) (m : Node) (s1 s2 s3 : State E) (o : Outcome unit) :
  Gate.test (consumable (st w)) (viewItem data) figure_guard = true →
  getImg (view (st w)) (Some (viewItem data)) = Val (Some img) →
  view (st w) !! img = Some e →
  hasAttribute e "src" = true →
  Gate.test (consumable (st w)) img [FName] = true →
  convertItem img (modelCursor data) (st w) = (Val r, s1) →
  first (modelRange r) = Some m →
  convertChildren (viewItem data) m s1 = (Val tt, s2) →
  updateConversionResult m data s2 = (o, s3) →
  let run := figure_run getImg convertItem convertChildren updateConversionResult data in
  (run w).1 = o
  ∧ st (run w).2 = s3
  ∧ made_calls run w =
      [ EvTest (viewItem data) figure_guard true;
        EvTest img [FName] true;
        EvConvertItem img (modelCursor data);
        EvConvertChildren (viewItem data) m;
        EvUpdateConversionResult m ].
Proof.
  intros Hguard Hi Hv Hsrc Hfree Hci Hfirst Hcc Hup run.
  pose proof (figure_success_run getImg convertItem convertChildren
                updateConversionResult data w img e Hguard Hi Hv Hsrc Hfree
                r m s1 s2 s3 o Hci Hfirst Hcc Hup) as Hrun.
  fold run in Hrun.
  split; [by rewrite Hrun|]. split; [by rewrite Hrun|].
  apply made_calls_of_journal. by rewrite Hrun.
Qed.

Lemma figure_converts_into_first_item_witness :
  let run := figure_run Sample.getViewImgFromWidget Sample.convertItem
               Sample.convertChildren Sample.updateConversionResult
               Sample.figure_event in
  (run Sample.world).1 = Val tt
  ∧ made_calls run Sample.world =
      [ EvTest 10%positive figure_guard true;
        EvTest 11%positive [FName] true;
        EvConvertItem 11%positive [0];
        EvConvertChildren 10%positive 2%positive;
        EvUpdateConversionResult 2%positive ].
Proof.
  intros run.
  pose proof (figure_converts_into_first_item
                Sample.getViewImgFromWidget Sample.convertItem
                Sample.convertChildren Sample.updateConversionResult
                Sample.figure_event Sample.world 11%positive Sample.img
                {| modelRange := [2%positive]; resultCursor := [0] |} 2%positive
                (Sample.convertItem 11%positive [0] (st Sample.world)).2
                (Sample.convertItem 11%positive [0] (st Sample.world)).2
                (Sample.convertItem 11%positive [0] (st Sample.world)).2
                (Val tt)
                eq_refl eq_refl eq_refl eq_refl eq_refl eq_refl eq_refl
                eq_refl eq_refl) as H.
  destruct H as (Hout & _ & Hcalls).
  split; [exact Hout | exact Hcalls].
Defined.

(** X3: when [convertItem] throws, the converter throws the same error right
    there: no child is converted and no result is reported. *)
Theorem figure_stops_when_item_conversion_throws {E : Type}
    (getImg : gmap Node ViewElement → option Node → Outcome (option Node))
    (convertItem : Node → Position → State E → Outcome ConversionResult * State E)
    (convertChildren : Node → Node → State E → Outcome unit * State E)
    (updateConversionResult : Node → UpcastData → State E → Outcome unit * State E)
    (data : UpcastData) (w : World E) (img : Node) (e : ViewElement)
    (err : string) (s1 : State E) :
  Gate.test (consumable (st w)) (viewItem data) figure_guard = true →
  getImg (view (st w)) (Some (viewItem data)) = Val (Some img) →
  view (st w) !! img = Some e →
  hasAttribute e "src" = true →
  Gate.test (consumable (st w)) img [FName] = true →
  convertItem img (modelCursor data) (st w) = (Throw err, s1) →
  let run := figure_run getImg convertItem convertChildren updateConversionResult data in
  (run w).1 = Throw err
  ∧ st (run w).2 = s1
  ∧ made_calls run w =
      [ EvTest (viewItem data) figure_guard true;
        EvTest img [FName] true;
        EvConvertItem img (modelCursor data) ].
Proof.
  intros Hguard Hi Hv Hsrc Hfree Hci run.
  pose proof (figure_item_throws_run getImg convertItem convertChildren
                updateConversionResult data w img e Hguard Hi Hv Hsrc Hfree
                err s1 Hci) as Hrun.
  fold run in Hrun.
  split; [by rewrite Hrun|]. split; [by rewrite Hrun|].
  apply made_calls_of_journal. by rewrite Hrun.
Qed.

Lemma figure_stops_when_item_conversion_throws_witness :
  let run := figure_run Sample.getViewImgFromWidget Sample.convertItem_throws
               Sample.convertChildren Sample.updateConversionResult
               Sample.figure_event in
  (run Sample.world).1 = Throw "conversion-error"
  ∧ made_calls run Sample.world =
      [ EvTest 10%positive figure_guard true;
        EvTest 11%positive [FName] true;
        EvConvertItem 11%positive [0] ].
Proof.
  intros run.
  pose proof (figure_stops_when_item_conversion_throws
                Sample.getViewImgFromWidget Sample.convertItem_throws
                Sample.convertChildren Sample.updateConversionResult
                Sample.figure_event Sample.world 11%positive Sample.img
                "conversion-error" (st Sample.world)
                eq_refl eq_refl eq_refl eq_refl eq_refl eq_refl) as H.
  destruct H as (Hout & _ & Hcalls).
  split; [exact Hout | exact Hcalls].
Defined.

(** X4: when [convertChildren] throws, the converter throws the same error
    and [updateConversionResult] is never called: the image [convertItem]
    produced is left unreported. *)
Theorem figure_stops_when_children_throw {E : Type}
    (getImg : gmap Node ViewElement → option Node → Outcome (option Node))
    (convertItem : Node → Position → State E → Outcome ConversionResult * State E)
    (convertChildren : Node → Node → State E → Outcome unit * State E)
    (updateConversionResult : Node → UpcastData → State E → Outcome unit * State E)
    (data : UpcastData) (w : World E) (img : Node) (e : ViewElement)
    (r : ConversionResult) (m : Node) (s1 s2 : State E) (err : string) :
  Gate.test (consumable (st w)) (viewItem data) figure_guard = true →
  getImg (view (st w)) (Some (viewItem data)) = Val (Some img) →
  view (st w) !! img = Some e →
  hasAttribute e "src" = true →
  Gate.test (consumable (st w)) img [FName] = true →
  convertItem img (modelCursor data) (st w) = (Val r, s1) →
  first (modelRange r) = Some m →
  convertChildren (viewItem data) m s1 = (Throw err, s2) →
  let run := figure_run getImg convertItem convertChildren updateConversionResult data in
  (run w).1 = Throw err
  ∧ st (run w).2 = s2
  ∧ made_calls run w =
      [ EvTest (viewItem data) figure_guard true;
        EvTest img [FName] true;
        EvConvertItem img (modelCursor data);
        EvConvertChildren (viewItem data) m ].
Proof.
  intros Hguard Hi Hv Hsrc Hfree Hci Hfirst Hcc run.
  pose proof (figure_children_throw_run getImg convertItem convertChildren
                updateConversionResult data w img e Hguard Hi Hv Hsrc Hfree
                r m s1 s2 err Hci Hfirst Hcc) as Hrun.
  fold run in Hrun.
  split; [by rewrite Hrun|]. split; [by rewrite Hrun|].
  apply made_calls_of_journal. by rewrite Hrun.
Qed.

Lemma figure_stops_when_children_throw_witness :
  let run := figure_run Sample.getViewImgFromWidget Sample.convertItem
               Sample.convertChildren_throws Sample.updateConversionResult
               Sample.figure_event in
  (run Sample.world).1 = Throw "children-error"
  ∧ made_calls run Sample.world =
      [ EvTest 10%positive figure_guard true;
        EvTest 11%positive [FName] true;
        EvConvertItem 11%positive [0];
        EvConvertChildren 10%positive 2%positive ].
Proof.
  intros run.
  pose proof (figure_stops_when_children_throw
                Sample.getViewImgFromWidget Sample.convertItem
                Sample.convertChildren_throws Sample.updateConversionResult
                Sample.figure_event Sample.world 11%positive Sample.img
                {| modelRange := [2%positive]; resultCursor := [0] |} 2%positive
                (Sample.convertItem 11%positive [0] (st Sample.world)).2
                (Sample.convertItem 11%positive [0] (st Sample.world)).2
                "children-error"
                eq_refl eq_refl eq_refl eq_refl eq_refl eq_refl eq_refl eq_refl) as H.
  destruct H as (Hout & _ & Hcalls).
  split; [exact Hout | exact Hcalls].
Defined.

(** ** Further properties of the attribute converters *)

(** X5: on an event that is not consumable (already consumed, or never
    registered for the item) both attribute converters return normally
    without touching the state; the failed consume is their only call. *)
Theorem attribute_converters_decline_unavailable {E : Type}
    (getImg : gmap Node ViewElement → option Node → Outcome (option Node))
    (evt : string) (data : DowncastData) (w : World E) :
  Gate.test (consumable (st w)) (item data) [FEvent evt] = false →
  let srcset := srcsetAttributeConverter_converter getImg evt data in
  let mirror := modelToViewAttributeConverter_converter getImg evt data in
  ((srcset w).1 = Val tt ∧ st (srcset w).2 = st w
   ∧ made_calls srcset w = [EvConsume (item data) [FEvent evt] false])
  ∧ ((mirror w).1 = Val tt ∧ st (mirror w).2 = st w
     ∧ made_calls mirror w = [EvConsume (item data) [FEvent evt] false]).
Proof.
  intros Hno srcset mirror.
  pose proof (srcset_declined getImg evt data w Hno) as Hs.
  pose proof (mirror_declined getImg evt data w Hno) as Hm.
  fold srcset in Hs. fold mirror in Hm.
  split.
  - split; [by rewrite Hs|]. split; [by rewrite Hs|].
    apply made_calls_of_journal. by rewrite Hs.
  - split; [by rewrite Hm|]. split; [by rewrite Hm|].
    apply made_calls_of_journal. by rewrite Hm.
Qed.

Lemma attribute_converters_decline_unavailable_witness :
  let srcset := srcsetAttributeConverter_converter
                  Sample.getViewImgFromWidget Sample.srcset_event
                  Sample.change_unregistered in
  st (srcset Sample.world).2 = st Sample.world
  ∧ made_calls srcset Sample.world =
      [EvConsume 2%positive [FEvent Sample.srcset_event] false].
Proof.
  intros srcset.
  pose proof (attribute_converters_decline_unavailable
                Sample.getViewImgFromWidget Sample.srcset_event
                Sample.change_unregistered Sample.world eq_refl) as H.
  destruct H as ((_ & Hst & Hcalls) & _).
  split; [exact Hst | exact Hcalls].
Defined.

(** X6: an attribute event is handled at most once per pass.  Once either
    attribute converter has run on a consumable event, on whatever branch and
    whether it returned or threw, a further run of either converter for the
    same event and item declines and leaves the state as it is. *)
Theorem attribute_event_handled_once {E : Type}
    (getImg getImg' : gmap Node ViewElement → option Node → Outcome (option Node))
    (evt : string) (data data' : DowncastData) (w : World E) :
  Gate.test (consumable (st w)) (item data) [FEvent evt] = true →
  item data' = item data →
  let after_srcset := (srcsetAttributeConverter_converter getImg evt data w).2 in
  let after_mirror := (modelToViewAttributeConverter_converter getImg evt data w).2 in
  let srcset' := srcsetAttributeConverter_converter getImg' evt data' in
  let mirror' := modelToViewAttributeConverter_converter getImg' evt data' in
  (st (srcset' after_srcset).2 = st after_srcset
   ∧ st (mirror' after_srcset).2 = st after_srcset
   ∧ made_calls srcset' after_srcset = [EvConsume (item data) [FEvent evt] false]
   ∧ made_calls mirror' after_srcset = [EvConsume (item data) [FEvent evt] false])
  ∧ (st (srcset' after_mirror).2 = st after_mirror
     ∧ st (mirror' after_mirror).2 = st after_mirror
     ∧ made_calls srcset' after_mirror = [EvConsume (item data) [FEvent evt] false]
     ∧ made_calls mirror' after_mirror = [EvConsume (item data) [FEvent evt] false]).
Proof.
  intros Havail Hitem after_srcset after_mirror srcset' mirror'.
  assert (Hgone : ∀ w1 : World E,
    consumable (st w1) = Gate.mark (item data) (FEvent evt) (consumable (st w)) →
    Gate.test (consumable (st w1)) (item data') [FEvent evt] = false).
  { intros w1 Hc. rewrite Hitem.
    apply (test_false_of_consumed _ _ _ (FEvent evt)); [apply list_elem_of_here|].
    rewrite Hc. unfold Gate.mark. apply lookup_insert_eq. }
  assert (Hdecl : ∀ w1 : World E,
    Gate.test (consumable (st w1)) (item data') [FEvent evt] = false →
    st (srcset' w1).2 = st w1
    ∧ st (mirror' w1).2 = st w1
    ∧ made_calls srcset' w1 = [EvConsume (item data) [FEvent evt] false]
    ∧ made_calls mirror' w1 = [EvConsume (item data) [FEvent evt] false]).
  { intros w1 Hno.
    pose proof (srcset_declined getImg' evt data' w1 Hno) as Hs.
    pose proof (mirror_declined getImg' evt data' w1 Hno) as Hm.
    fold srcset' in Hs. fold mirror' in Hm.
    unfold consume_event in Hs, Hm. rewrite Hitem in Hs, Hm.
    split; [by rewrite Hs|]. split; [by rewrite Hm|].
    split; apply made_calls_of_journal; [by rewrite Hs | by rewrite Hm]. }
  destruct (srcset_after_consume getImg evt data w Havail) as (? & _ & _ & Hcs).
  destruct (mirror_after_consume getImg evt data w Havail) as (? & _ & _ & Hcm).
  split; apply Hdecl, Hgone; assumption.
Qed.

Lemma attribute_event_handled_once_witness :
  let first_run :=
    (srcsetAttributeConverter_converter Sample.getViewImgFromWidget
       Sample.srcset_event (Sample.change VNull Sample.srcset_full) Sample.world).2 in
  let again :=
    srcsetAttributeConverter_converter Sample.getViewImgFromWidget
      Sample.srcset_event (Sample.change Sample.srcset_full VNull) in
  st (again first_run).2 = st first_run
  ∧ made_calls again first_run
    = [EvConsume 1%positive [FEvent Sample.srcset_event] false].
Proof.
  intros first_run again.
  pose proof (attribute_event_handled_once
                Sample.getViewImgFromWidget Sample.getViewImgFromWidget
                Sample.srcset_event
                (Sample.change VNull Sample.srcset_full)
                (Sample.change Sample.srcset_full VNull)
                Sample.world eq_refl eq_refl) as H.
  destruct H as ((Hst & _ & Hcalls & _) & _).
  split; [exact Hst | exact Hcalls].
Defined.

(** *** What the attribute converters leave alone *)

Lemma same_but_refl keys e : same_but keys e e.
Proof. by repeat split. Qed.

Lemma same_but_trans keys e1 e2 e3 :
  same_but keys e1 e2 → same_but keys e2 e3 → same_but keys e1 e3.
Proof.
  intros (Hn1 & Hc1 & Hk1 & Ha1) (Hn2 & Hc2 & Hk2 & Ha2).
  repeat split; try congruence.
  intros k Hk. rewrite (Ha2 k Hk). by apply Ha1.
Qed.

Lemma same_but_set keys k v e : k ∈ keys → same_but keys e (set_attr k v e).
Proof.
  intros Hin. repeat split. intros k' Hk'. cbn.
  apply lookup_insert_ne. intros ->. by apply Hk'.
Qed.

Lemma same_but_remove keys k e : k ∈ keys → same_but keys e (remove_attr k e).
Proof.
  intros Hin. repeat split. intros k' Hk'. cbn.
  apply lookup_delete_ne. intros ->. by apply Hk'.
Qed.

Section FrameRules.

Context {E : Type}.
Variables (i : Node) (evt : string) (keys : list string).

Lemma attribute_frame_refl (s : State E) : attribute_frame i evt keys s s.
Proof.
  repeat split; try done; [by left|].
  intros n. destruct (view s !! n); constructor. apply same_but_refl.
Qed.

Lemma attribute_frame_trans (s1 s2 s3 : State E) :
  attribute_frame i evt keys s1 s2 → attribute_frame i evt keys s2 s3 →
  attribute_frame i evt keys s1 s3.
Proof.
  intros (Hm1 & He1 & Ho1 & Hc1 & Hv1) (Hm2 & He2 & Ho2 & Hc2 & Hv2).
  split; [congruence|]. split; [congruence|].
  split; [intros key Hkey; rewrite (Ho2 key Hkey); by apply Ho1|].
  split.
  - destruct Hc2 as [Hc2|Hc2]; [rewrite Hc2; exact Hc1 | by right].
  - intros n. specialize (Hv1 n). specialize (Hv2 n).
    destruct Hv1 as [e1 e2 H12|]; inversion Hv2; subst; constructor.
    by apply (same_but_trans _ _ e2).
Qed.

Lemma frame_consume :
  preserves (E := E) (attribute_frame i evt keys) (consumable_consume i [FEvent evt]).
Proof.
  intros w. unfold consumable_consume, Gate.consume. cbn.
  destruct (Gate.test (consumable (st w)) i [FEvent evt]); cbn.
  - split; [done|]. split; [done|]. unfold Gate.mark.
    split; [intros key Hkey; by apply lookup_insert_ne|].
    split; [right; apply lookup_insert_eq|].
    intros n. cbn. destruct (view (st w) !! n); constructor. apply same_but_refl.
  - destruct (st w). apply attribute_frame_refl.
Qed.

Lemma frame_view_update (s : State E) (n : Node) (e e' : ViewElement) :
  view s !! n = Some e → same_but keys e e' →
  attribute_frame i evt keys s (with_view (<[n := e']> (view s)) s).
Proof.
  intros Hn He. repeat split; try done; [by left|]. cbn.
  intros n'. destruct (decide (n = n')) as [<-|Hne].
  - rewrite lookup_insert_eq, Hn. by constructor.
  - rewrite lookup_insert_ne by done.
    destruct (view s !! n'); constructor. apply same_but_refl.
Qed.

Lemma frame_setAttribute (k : string) (v : Value) (target : option Node) :
  k ∈ keys → preserves (E := E) (attribute_frame i evt keys) (writer_setAttribute k v target).
Proof.
  intros Hk w. unfold writer_setAttribute.
  destruct target as [n|]; [|apply attribute_frame_refl].
  destruct (view (st w) !! n) as [e|] eqn:Hn; [|apply attribute_frame_refl].
  cbn. apply (frame_view_update _ n e); [done | by apply same_but_set].
Qed.

Lemma frame_removeAttribute (k : string) (target : option Node) :
  k ∈ keys → preserves (E := E) (attribute_frame i evt keys) (writer_removeAttribute k target).
Proof.
  intros Hk w. unfold writer_removeAttribute.
  destruct target as [n|]; [|apply attribute_frame_refl].
  destruct (view (st w) !! n) as [e|] eqn:Hn; [|apply attribute_frame_refl].
  cbn. apply (frame_view_update _ n e); [done | by apply same_but_remove].
Qed.

End FrameRules.

(** Walks a converter body with the rules above. *)
Ltac frame_walk i evt keys :=
  repeat first
    [ apply (preserves_ret _ (attribute_frame_refl i evt keys))
    | apply (preserves_lift _ (attribute_frame_refl i evt keys))
    | apply (preserves_toViewElement _ (attribute_frame_refl i evt keys))
    | apply (preserves_locate _ (attribute_frame_refl i evt keys))
    | apply frame_consume
    | apply frame_setAttribute; unfold srcset_keys; set_solver
    | apply frame_removeAttribute; unfold srcset_keys; set_solver
    | apply (preserves_bind _ (attribute_frame_trans i evt keys)); [|intros ?]
    | match goal with
      | |- preserves _ (if ?b then _ else _) => destruct b
      end ].

(** X7: whatever its input and however it ends, the srcset converter changes
    nothing but the consumable of its own event (towards consumed) and the
    attributes srcset, sizes and width of elements that are already in the
    view: it creates and deletes no element, leaves names, classes, children
    and every other attribute alone, and does not touch the mapper or the
    model. *)
Theorem srcset_converter_frame {E : Type}
    (getImg : gmap Node ViewElement → option Node → Outcome (option Node))
    (evt : string) (data : DowncastData) (w : World E) :
  attribute_frame (item data) evt srcset_keys
    (st w) (st (srcsetAttributeConverter_converter getImg evt data w).2).
Proof.
  enough (preserves (attribute_frame (item data) evt srcset_keys)
            (srcsetAttributeConverter_converter getImg evt data)) as H by exact (H w).
  unfold srcsetAttributeConverter_converter.
  frame_walk (item data) evt srcset_keys.
Qed.

(** X8: whatever its input and however it ends, the mirror converter changes
    nothing but the consumable of its own event (towards consumed) and the
    one attribute named by the event data, on elements that are already in
    the view. *)
Theorem mirror_converter_frame {E : Type}
    (getImg : gmap Node ViewElement → option Node → Outcome (option Node))
    (evt : string) (data : DowncastData) (w : World E) :
  attribute_frame (item data) evt [attributeKey data]
    (st w) (st (modelToViewAttributeConverter_converter getImg evt data w).2).
Proof.
  enough (preserves (attribute_frame (item data) evt [attributeKey data])
            (modelToViewAttributeConverter_converter getImg evt data)) as H by exact (H w).
  unfold modelToViewAttributeConverter_converter.
  frame_walk (item data) evt [attributeKey data].
Qed.

(** *** Round trips between the model value and the view attributes *)

Lemma field_srcset_value_data (e0 : ViewElement) :
  field (srcset_value e0) "data" = getAttribute e0 "srcset".
Proof. unfold srcset_value. by destruct (hasAttribute e0 "width"). Qed.

Lemma field_srcset_value_width (e0 : ViewElement) :
  field (srcset_value e0) "width" = getAttribute e0 "width".
Proof.
  unfold srcset_value, hasAttribute, getAttribute.
  destruct (attrs e0 !! "width") as [x|] eqn:Hw.
  - by rewrite bool_decide_eq_true_2 by eauto.
  - rewrite bool_decide_eq_false_2; [done|]. by intros [? ?].
Qed.

(** What the upcast callback reads off an img the srcset converter wrote. *)
Lemma srcset_value_after_set (e : ViewElement) (new : Value) :
  srcset_value (img_after_set e new)
  = VObj (("data", VStr (js_String (field new "data")))
          :: (if truthy_field new "width"
              then [("width", VStr (js_String (field new "width")))]
              else if hasAttribute e "width" then [("width", getAttribute e "width")]
              else [])).
Proof.
  unfold img_after_set, srcset_value, hasAttribute, getAttribute.
  destruct (truthy_field new "width"); cbn [set_attr attrs].
  - repeat (rewrite lookup_insert_eq || (rewrite lookup_insert_ne by done)).
    rewrite bool_decide_eq_true_2 by eauto. reflexivity.
  - repeat (rewrite lookup_insert_eq || (rewrite lookup_insert_ne by done)).
    reflexivity.
Qed.

(** The img in the view after a set with truthy [data]. *)
Lemma img_after_srcset_set {E : Type}
    (getImg : gmap Node ViewElement → option Node → Outcome (option Node))
    (evt : string) (data : DowncastData) (w : World E) (img : Node) (e : ViewElement) :
  Gate.test (consumable (st w)) (item data) [FEvent evt] = true →
  getImg (view (st w)) (mapper (st w) !! item data) = Val (Some img) →
  view (st w) !! img = Some e →
  is_null (attributeNewValue data) = false →
  truthy_field (attributeNewValue data) "data" = true →
  st (srcsetAttributeConverter_converter getImg evt data w).2
  = with_view (<[img := img_after_set e (attributeNewValue data)]> (view (st w)))
              (consumed_state evt data w).
Proof.
  intros Havail Himg Hview Hnull Hdata.
  destruct (srcset_set_run getImg evt data w img e Havail Himg Hview Hnull)
    as [_ Hs].
  cbv zeta in Hs. by rewrite Hdata in Hs.
Qed.

(** X9: model -> view -> model.  After the srcset converter has written a
    value with truthy [data], the declared upcast mapper reads back an object
    with the string form of that [data] and with a [width] that is the
    string form of the value's width when that is truthy, else a width
    attribute the img already had, else absent; every other property of the
    original value is dropped. *)
Theorem srcset_round_trip_normal_form {E : Type}
    (getImg : gmap Node ViewElement → option Node → Outcome (option Node))
    (evt : string) (data : DowncastData) (w : World E) (img : Node) (e : ViewElement) :
  Gate.test (consumable (st w)) (item data) [FEvent evt] = true →
  getImg (view (st w)) (mapper (st w) !! item data) = Val (Some img) →
  view (st w) !! img = Some e →
  is_null (attributeNewValue data) = false →
  truthy_field (attributeNewValue data) "data" = true →
  let new := attributeNewValue data in
  let w' := (srcsetAttributeConverter_converter getImg evt data w).2 in
  upcast_attribute "srcset" <$> view (st w') !! img
  = Some (Some (VObj
      (("data", VStr (js_String (field new "data")))
       :: (if truthy_field new "width"
           then [("width", VStr (js_String (field new "width")))]
           else if hasAttribute e "width" then [("width", getAttribute e "width")]
           else [])))).
Proof.
  intros Havail Himg Hview Hnull Hdata new w'. subst w'.
  rewrite (img_after_srcset_set getImg evt data w img e Havail Himg Hview Hnull Hdata).
  unfold with_view. cbn [view]. rewrite lookup_insert_eq.
  cbn [fmap option_fmap option_map]. unfold upcast_attribute.
  change (declared_mapper "srcset")
    with (Some {| view_name := "img"; view_key := "srcset";
                  model_key := "srcset"; model_value := Some srcset_value |}).
  cbn [fmap option_fmap option_map upcast_value model_value].
  by rewrite srcset_value_after_set.
Qed.

Lemma srcset_round_trip_normal_form_witness :
  let numeric := VObj [("data", VStr "c 3x"); ("width", VNum 300); ("alt", VStr "x")] in
  let stale := VObj [("data", VStr "b 1x"); ("width", VStr "")] in
  let after v w := (srcsetAttributeConverter_converter Sample.getViewImgFromWidget
                      Sample.srcset_event (Sample.change VNull v) w).2 in
  upcast_attribute "srcset" <$> view (st (after numeric Sample.world)) !! 11%positive
  = Some (Some (VObj [("data", VStr "c 3x"); ("width", VStr "300")]))
  ∧ upcast_attribute "srcset" <$> view (st (after stale Sample.world_wide)) !! 11%positive
    = Some (Some (VObj [("data", VStr "b 1x"); ("width", VStr "640")])).
Proof.
  intros numeric stale after. split.
  - exact (srcset_round_trip_normal_form
             Sample.getViewImgFromWidget Sample.srcset_event
             (Sample.change VNull numeric) Sample.world 11%positive Sample.img
             eq_refl eq_refl eq_refl eq_refl eq_refl).
  - exact (srcset_round_trip_normal_form
             Sample.getViewImgFromWidget Sample.srcset_event
             (Sample.change VNull stale) Sample.world_wide 11%positive Sample.img_wide
             eq_refl eq_refl eq_refl eq_refl eq_refl).
Defined.

(** X10: model -> view -> model is exact on string values.  For every value
    [{ data: d, width: wd }] whose [d] and [wd] are non-empty strings, and
    for every value [{ data: d }] with a non-empty string [d] written to an
    img that has no width attribute, the upcast mapper returns the very value
    that was set. *)
Theorem srcset_round_trip_exact {E : Type}
    (getImg : gmap Node ViewElement → option Node → Outcome (option Node))
    (evt : string) (data : DowncastData) (w : World E) (img : Node) (e : ViewElement)
    (d : string) (width : option string) :
  Gate.test (consumable (st w)) (item data) [FEvent evt] = true →
  getImg (view (st w)) (mapper (st w) !! item data) = Val (Some img) →
  view (st w) !! img = Some e →
  truthy (VStr d) = true →
  match width with
  | Some wd => truthy (VStr wd) = true
  | None => hasAttribute e "width" = false
  end →
  attributeNewValue data
  = VObj (("data", VStr d)
          :: match width with Some wd => [("width", VStr wd)] | None => [] end) →
  let w' := (srcsetAttributeConverter_converter getImg evt data w).2 in
  upcast_attribute "srcset" <$> view (st w') !! img
  = Some (Some (attributeNewValue data)).
Proof.
  intros Havail Himg Hview Hd Hwidth Hnew w'. subst w'.
  assert (Hnull : is_null (attributeNewValue data) = false) by by rewrite Hnew.
  assert (Hfd : field (attributeNewValue data) "data" = VStr d) by by rewrite Hnew.
  assert (Hdata : truthy_field (attributeNewValue data) "data" = true).
  { unfold truthy_field. by rewrite Hfd. }
  rewrite (img_after_srcset_set getImg evt data w img e Havail Himg Hview Hnull Hdata).
  unfold with_view. cbn [view]. rewrite lookup_insert_eq.
  cbn [fmap option_fmap option_map]. unfold upcast_attribute.
  change (declared_mapper "srcset")
    with (Some {| view_name := "img"; view_key := "srcset";
                  model_key := "srcset"; model_value := Some srcset_value |}).
  cbn [fmap option_fmap option_map upcast_value model_value].
  rewrite srcset_value_after_set, Hfd. cbn [js_String].
  destruct width as [wd|].
  - assert (Hfw : field (attributeNewValue data) "width" = VStr wd) by by rewrite Hnew.
    unfold truthy_field. rewrite Hfw, Hwidth. cbn [js_String]. by rewrite Hnew.
  - assert (Hfw : field (attributeNewValue data) "width" = VUndefined) by by rewrite Hnew.
    unfold truthy_field. rewrite Hfw. cbn [truthy]. rewrite Hwidth. by rewrite Hnew.
Qed.

Lemma srcset_round_trip_exact_witness :
  let bare := VObj [("data", VStr "c 3x")] in
  let full := VObj [("data", VStr "c 3x"); ("width", VStr "120")] in
  let after v := (srcsetAttributeConverter_converter Sample.getViewImgFromWidget
                    Sample.srcset_event (Sample.change VNull v) Sample.world).2 in
  upcast_attribute "srcset" <$> view (st (after bare)) !! 11%positive = Some (Some bare)
  ∧ upcast_attribute "srcset" <$> view (st (after full)) !! 11%positive = Some (Some full).
Proof.
  intros bare full after. split.
  - exact (srcset_round_trip_exact
             Sample.getViewImgFromWidget Sample.srcset_event
             (Sample.change VNull bare) Sample.world 11%positive Sample.img
             "c 3x" None
             eq_refl eq_refl eq_refl eq_refl eq_refl eq_refl).
  - exact (srcset_round_trip_exact
             Sample.getViewImgFromWidget Sample.srcset_event
             (Sample.change VNull full) Sample.world 11%positive Sample.img
             "c 3x" (Some "120")
             eq_refl eq_refl eq_refl eq_refl eq_refl eq_refl).
Defined.

(** X11: view -> model -> view.  Setting the value the upcast callback read off
    a source img whose srcset is truthy writes that srcset back, writes the
    source's width back exactly when it is truthy, and always writes sizes as
    [100vw], whatever sizes the source img had. *)
Theorem srcset_upcast_then_downcast {E : Type}
    (getImg : gmap Node ViewElement → option Node → Outcome (option Node))
    (evt : string) (data : DowncastData) (w : World E) (img : Node)
    (e source : ViewElement) :
  Gate.test (consumable (st w)) (item data) [FEvent evt] = true →
  getImg (view (st w)) (mapper (st w) !! item data) = Val (Some img) →
  view (st w) !! img = Some e →
  truthy (getAttribute source "srcset") = true →
  attributeNewValue data = srcset_value source →
  let run := srcsetAttributeConverter_converter getImg evt data in
  made_calls run w =
    EvConsume (item data) [FEvent evt] true
    :: EvSetAttribute "srcset" (getAttribute source "srcset") (Some img)
    :: EvSetAttribute "sizes" (VStr "100vw") (Some img)
    :: (if truthy (getAttribute source "width")
        then [EvSetAttribute "width" (getAttribute source "width") (Some img)]
        else []).
Proof.
  intros Havail Himg Hview Hsrcset Hnew run.
  assert (Hnull : is_null (attributeNewValue data) = false) by by rewrite Hnew.
  destruct (srcset_set_run getImg evt data w img e Havail Himg Hview Hnull)
    as [Hj _].
  cbv zeta in Hj. unfold truthy_field in Hj.
  rewrite Hnew, field_srcset_value_data, field_srcset_value_width, Hsrcset in Hj.
  apply made_calls_of_journal. exact Hj.
Qed.

Lemma srcset_upcast_then_downcast_witness :
  let source :=
    {| name := "img";
       attrs := list_to_map [ ("srcset", VStr "a 1x, b 2x"); ("sizes", VStr "50vw") ];
       classes := []; children := [] |} in
  let run := srcsetAttributeConverter_converter Sample.getViewImgFromWidget
               Sample.srcset_event (Sample.change VNull (srcset_value source)) in
  made_calls run Sample.world =
    [ EvConsume 1%positive [FEvent Sample.srcset_event] true;
      EvSetAttribute "srcset" (VStr "a 1x, b 2x") (Some 11%positive);
      EvSetAttribute "sizes" (VStr "100vw") (Some 11%positive) ].
Proof.
  intros source run.
  exact (srcset_upcast_then_downcast
           Sample.getViewImgFromWidget Sample.srcset_event
           (Sample.change VNull (srcset_value source)) Sample.world
           11%positive Sample.img source
           eq_refl eq_refl eq_refl eq_refl eq_refl).
Defined.

(** *** Successive changes of the same attribute *)

Lemma element_eta (e : ViewElement) :
  {| name := name e; attrs := attrs e; classes := classes e; children := children e |}
  = e.
Proof. by destruct e. Qed.

(** Removing with the value that was set gives back an element that had none
    of the written attributes. *)
Lemma removal_undoes_set (e : ViewElement) (v : Value) :
  attrs e !! "srcset" = None →
  attrs e !! "sizes" = None →
  (truthy_field v "width" = true → attrs e !! "width" = None) →
  img_after_removal (img_after_set e v) v = e.
Proof.
  intros Hs Hz Hw. unfold img_after_removal, img_after_set.
  destruct e as [n a c ch]. cbn [attrs] in Hs, Hz, Hw.
  destruct (truthy_field v "width");
    unfold remove_attr, set_attr; cbn [attrs name classes children]; f_equal;
    apply map_eq; intros k;
    repeat (rewrite lookup_delete || rewrite lookup_insert);
    repeat case_decide; subst; try done.
  by rewrite Hw.
Qed.

(** X12: setting srcset and then, in a later pass, removing it with the set
    value as the old value restores the view exactly, provided the img had
    none of the attributes the set wrote. *)
Theorem srcset_set_then_remove_restores {E : Type}
    (getImg : gmap Node ViewElement → option Node → Outcome (option Node))
    (evt evt' : string) (data data' : DowncastData) (w : World E)
    (img : Node) (e : ViewElement) (g' : gmap (Node * Feature) bool) :
  Gate.test (consumable (st w)) (item data) [FEvent evt] = true →
  getImg (view (st w)) (mapper (st w) !! item data) = Val (Some img) →
  view (st w) !! img = Some e →
  is_null (attributeNewValue data) = false →
  truthy_field (attributeNewValue data) "data" = true →
  attrs e !! "srcset" = None →
  attrs e !! "sizes" = None →
  (truthy_field (attributeNewValue data) "width" = true → attrs e !! "width" = None) →
  let w1 := (srcsetAttributeConverter_converter getImg evt data w).2 in
  Gate.test g' (item data') [FEvent evt'] = true →
  getImg (view (st w1)) (mapper (st w1) !! item data') = Val (Some img) →
  attributeNewValue data' = VNull →
  attributeOldValue data' = attributeNewValue data →
  view (st (srcsetAttributeConverter_converter getImg evt' data'
              (later_pass g' (st w1))).2)
  = view (st w).
Proof.
  intros Havail Himg Hview Hnull Hdata Hs Hz Hw w1 Havail' Himg' Hnew' Hold'.
  pose proof (img_after_srcset_set getImg evt data w img e
                Havail Himg Hview Hnull Hdata) as Hst1.
  fold w1 in Hst1.
  assert (Hview1 : view (st (later_pass g' (st w1))) !! img
                   = Some (img_after_set e (attributeNewValue data))).
  { cbn. rewrite Hst1. cbn. apply lookup_insert_eq. }
  assert (Hnull' : is_null (attributeNewValue data') = true) by by rewrite Hnew'.
  destruct (srcset_removal_run getImg evt' data' (later_pass g' (st w1)) img
              (img_after_set e (attributeNewValue data))
              Havail' Himg' Hview1 Hnull') as [_ Hst2].
  cbv zeta in Hst2. rewrite Hold', Hdata in Hst2. rewrite Hst2.
  cbn. rewrite Hst1. cbn.
  rewrite insert_insert_eq, (removal_undoes_set e _ Hs Hz Hw).
  by apply insert_id.
Qed.

Lemma srcset_set_then_remove_restores_witness :
  let w1 := (srcsetAttributeConverter_converter Sample.getViewImgFromWidget
               Sample.srcset_event (Sample.change VNull Sample.srcset_full)
               Sample.world).2 in
  view (st (srcsetAttributeConverter_converter Sample.getViewImgFromWidget
              Sample.srcset_event (Sample.change Sample.srcset_full VNull)
              (later_pass Sample.the_consumable (st w1))).2)
  = view (st Sample.world).
Proof.
  intros w1.
  refine (srcset_set_then_remove_restores
            Sample.getViewImgFromWidget Sample.srcset_event Sample.srcset_event
            (Sample.change VNull Sample.srcset_full)
            (Sample.change Sample.srcset_full VNull)
            Sample.world 11%positive Sample.img Sample.the_consumable
            eq_refl eq_refl eq_refl eq_refl eq_refl eq_refl eq_refl _
            eq_refl _ eq_refl eq_refl).
  - intros _. reflexivity.
  - vm_compute. reflexivity.
Defined.

(** X13: a srcset change to a value without truthy [width] does not clear a
    width written for the previous value: after setting [{ data, width }] and
    then, in a later pass, a value with truthy [data] only, the img carries
    the new srcset together with the old width, both in their string form. *)
Theorem srcset_change_keeps_stale_width {E : Type}
    (getImg : gmap Node ViewElement → option Node → Outcome (option Node))
    (evt evt' : string) (data data' : DowncastData) (w : World E)
    (img : Node) (e : ViewElement) (g' : gmap (Node * Feature) bool) :
  Gate.test (consumable (st w)) (item data) [FEvent evt] = true →
  getImg (view (st w)) (mapper (st w) !! item data) = Val (Some img) →
  view (st w) !! img = Some e →
  is_null (attributeNewValue data) = false →
  truthy_field (attributeNewValue data) "data" = true →
  truthy_field (attributeNewValue data) "width" = true →
  let w1 := (srcsetAttributeConverter_converter getImg evt data w).2 in
  Gate.test g' (item data') [FEvent evt'] = true →
  getImg (view (st w1)) (mapper (st w1) !! item data') = Val (Some img) →
  is_null (attributeNewValue data') = false →
  truthy_field (attributeNewValue data') "data" = true →
  truthy_field (attributeNewValue data') "width" = false →
  let w2 := (srcsetAttributeConverter_converter getImg evt' data'
               (later_pass g' (st w1))).2 in
  (fun e' => (getAttribute e' "srcset", getAttribute e' "width"))
    <$> view (st w2) !! img
  = Some (VStr (js_String (field (attributeNewValue data') "data")),
          VStr (js_String (field (attributeNewValue data) "width"))).
Proof.
  intros Havail Himg Hview Hnull Hdata Hwidth w1 Havail' Himg' Hnull' Hdata' Hwidth' w2.
  pose proof (img_after_srcset_set getImg evt data w img e
                Havail Himg Hview Hnull Hdata) as Hst1.
  fold w1 in Hst1.
  assert (Hview1 : view (st (later_pass g' (st w1))) !! img
                   = Some (img_after_set e (attributeNewValue data))).
  { cbn. rewrite Hst1. cbn. apply lookup_insert_eq. }
  pose proof (img_after_srcset_set getImg evt' data' (later_pass g' (st w1)) img
                _ Havail' Himg' Hview1 Hnull' Hdata') as Hst2.
  fold w2 in Hst2. rewrite Hst2.
  unfold with_view. cbn [view]. rewrite lookup_insert_eq.
  cbn [fmap option_fmap option_map].
  unfold img_after_set, getAttribute. rewrite Hwidth, Hwidth'.
  cbn [set_attr attrs].
  repeat (rewrite lookup_insert_eq || (rewrite lookup_insert_ne by done)).
  reflexivity.
Qed.

Lemma srcset_change_keeps_stale_width_witness :
  let first_value := VObj [("data", VStr "a 1x, b 2x"); ("width", VNum 300)] in
  let w1 := (srcsetAttributeConverter_converter Sample.getViewImgFromWidget
               Sample.srcset_event (Sample.change VNull first_value)
               Sample.world).2 in
  let narrower := VObj [("data", VStr "c 1x")] in
  let w2 := (srcsetAttributeConverter_converter Sample.getViewImgFromWidget
               Sample.srcset_event (Sample.change first_value narrower)
               (later_pass Sample.the_consumable (st w1))).2 in
  (fun e' => (getAttribute e' "srcset", getAttribute e' "width"))
    <$> view (st w2) !! 11%positive
  = Some (VStr "c 1x", VStr "300").
Proof.
  intros first_value w1 narrower w2.
  refine (srcset_change_keeps_stale_width
            Sample.getViewImgFromWidget Sample.srcset_event Sample.srcset_event
            (Sample.change VNull first_value)
            (Sample.change first_value narrower)
            Sample.world 11%positive Sample.img Sample.the_consumable
            eq_refl eq_refl eq_refl eq_refl eq_refl eq_refl
            eq_refl _ eq_refl eq_refl eq_refl).
  vm_compute. reflexivity.
Defined.

(** X14: the mirror converter overwrites.  After two changes of the same
    attribute in successive passes the view is what the second change alone
    would have produced; the first value leaves no trace. *)
Theorem mirror_last_write_wins {E : Type}
    (getImg : gmap Node ViewElement → option Node → Outcome (option Node))
    (evt evt' : string) (data data' : DowncastData) (w : World E)
    (img : Node) (e : ViewElement) (g' : gmap (Node * Feature) bool) :
  Gate.test (consumable (st w)) (item data) [FEvent evt] = true →
  getImg (view (st w)) (mapper (st w) !! item data) = Val (Some img) →
  view (st w) !! img = Some e →
  let w1 := (modelToViewAttributeConverter_converter getImg evt data w).2 in
  Gate.test g' (item data') [FEvent evt'] = true →
  getImg (view (st w1)) (mapper (st w1) !! item data') = Val (Some img) →
  attributeKey data' = attributeKey data →
  view (st (modelToViewAttributeConverter_converter getImg evt' data'
              (later_pass g' (st w1))).2)
  = <[img := set_attr (attributeKey data')
               (js_or (attributeNewValue data') (VStr "")) e]> (view (st w)).
Proof.
  intros Havail Himg Hview w1 Havail' Himg' Hkey.
  pose proof (mirror_run getImg evt data w img e Havail Himg Hview) as Hrun1.
  assert (Hst1 : st w1 = with_view
            (<[img := set_attr (attributeKey data)
                        (js_or (attributeNewValue data) (VStr "")) e]> (view (st w)))
            (consumed_state evt data w)).
  { subst w1. by rewrite Hrun1. }
  assert (Hview1 : view (st (later_pass g' (st w1))) !! img
                   = Some (set_attr (attributeKey data)
                             (js_or (attributeNewValue data) (VStr "")) e)).
  { cbn. rewrite Hst1. cbn. apply lookup_insert_eq. }
  rewrite (mirror_run getImg evt' data' (later_pass g' (st w1)) img _
             Havail' Himg' Hview1).
  cbn. rewrite Hst1. cbn. rewrite insert_insert_eq. f_equal.
  unfold set_attr. cbn. rewrite Hkey. by rewrite insert_insert_eq.
Qed.

Lemma mirror_last_write_wins_witness :
  let w1 := (modelToViewAttributeConverter_converter Sample.getViewImgFromWidget
               Sample.alt_event (Sample.alt_change (VStr "a cat")) Sample.world).2 in
  view (st (modelToViewAttributeConverter_converter Sample.getViewImgFromWidget
              Sample.alt_event (Sample.alt_change VNull)
              (later_pass Sample.the_consumable (st w1))).2)
  = <[11%positive := set_attr "alt" (VStr "") Sample.img]> (view (st Sample.world)).
Proof.
  intros w1.
  refine (mirror_last_write_wins
            Sample.getViewImgFromWidget Sample.alt_event Sample.alt_event
            (Sample.alt_change (VStr "a cat")) (Sample.alt_change VNull)
            Sample.world 11%positive Sample.img Sample.the_consumable
            eq_refl eq_refl eq_refl eq_refl _ eq_refl).
  vm_compute. reflexivity.
Defined.

(** *** Values the srcset converter cannot read *)

(** X15: when the value the srcset converter inspects is [undefined] or [null]
    (an [undefined] new value, or a change to [null] whose old value is
    [null] or [undefined]), reading its [data] throws a TypeError after the
    event has been consumed: the converter fails, the view is untouched and
    the event cannot be handled again in this pass. *)
Theorem srcset_unreadable_value_throws {E : Type}
    (getImg : gmap Node ViewElement → option Node → Outcome (option Node))
    (evt : string) (data : DowncastData) (w : World E) (found : option Node) :
  Gate.test (consumable (st w)) (item data) [FEvent evt] = true →
  getImg (view (st w)) (mapper (st w) !! item data) = Val found →
  srcset_of data = VUndefined ∨ srcset_of data = VNull →
  let run := srcsetAttributeConverter_converter getImg evt data in
  (run w).1 = Throw TypeError
  ∧ made_calls run w = [EvConsume (item data) [FEvent evt] true]
  ∧ view (st (run w).2) = view (st w)
  ∧ consumable (st (run w).2) !! (item data, FEvent evt) = Some false.
Proof.
  intros Havail Himg Hbad run.
  assert (Hthrow : get_prop (srcset_of data) "data" = Throw TypeError)
    by (destruct Hbad as [-> | ->]; reflexivity).
  assert (Hrun : run w = (Throw TypeError,
            {| st := consumed_state evt data w;
               journal := journal w ++ [EvConsume (item data) [FEvent evt] true] |})).
  { subst run. unfold srcsetAttributeConverter_converter, consumed_state.
    unfold srcset_of in Hthrow. unfold_api.
    rewrite (consume_success _ _ _ Havail). cbn. rewrite Himg. cbn.
    destruct (is_null (attributeNewValue data)); cbn; by rewrite Hthrow. }
  split; [by rewrite Hrun|].
  split; [apply made_calls_of_journal; by rewrite Hrun|].
  split; [by rewrite Hrun|].
  rewrite Hrun. cbn. unfold Gate.mark. apply lookup_insert_eq.
Qed.

Lemma srcset_unreadable_value_throws_witness :
  let run := srcsetAttributeConverter_converter Sample.getViewImgFromWidget
               Sample.srcset_event (Sample.change VNull VUndefined) in
  (run Sample.world).1 = Throw TypeError
  ∧ made_calls run Sample.world
    = [EvConsume 1%positive [FEvent Sample.srcset_event] true].
Proof.
  intros run.
  pose proof (srcset_unreadable_value_throws
                Sample.getViewImgFromWidget Sample.srcset_event
                (Sample.change VNull VUndefined) Sample.world (Some 11%positive)
                eq_refl eq_refl (or_introl eq_refl)) as H.
  destruct H as (Hout & Hcalls & _).
  split; [exact Hout | exact Hcalls].
Defined.

(** X16: view -> model -> view loses an image whose srcset is empty.  The
    value the upcast callback reads off a source img with a falsy srcset
    (the empty string, or no srcset at all) makes the srcset converter write
    nothing, not even the source's width, although the event is consumed. *)
Theorem srcset_upcast_empty_then_downcast {E : Type}
    (getImg : gmap Node ViewElement → option Node → Outcome (option Node))
    (evt : string) (data : DowncastData) (w : World E) (source : ViewElement) :
  Gate.test (consumable (st w)) (item data) [FEvent evt] = true →
  truthy (getAttribute source "srcset") = false →
  attributeNewValue data = srcset_value source →
  let run := srcsetAttributeConverter_converter getImg evt data in
  made_calls run w = [EvConsume (item data) [FEvent evt] true]
  ∧ view (st (run w).2) = view (st w)
  ∧ consumable (st (run w).2) !! (item data, FEvent evt) = Some false.
Proof.
  intros Havail Hempty Hnew run.
  assert (Hno : truthy_field (srcset_of data) "data" = false).
  { unfold srcset_of, truthy_field. rewrite Hnew. cbn [is_null srcset_value].
    by rewrite field_srcset_value_data. }
  pose proof (srcset_no_data getImg evt data w Havail Hno) as Hrun.
  fold run in Hrun.
  split; [apply made_calls_of_journal; by rewrite Hrun|].
  split; [by rewrite Hrun|].
  rewrite Hrun. cbn. unfold Gate.mark. apply lookup_insert_eq.
Qed.

Lemma srcset_upcast_empty_then_downcast_witness :
  let source :=
    {| name := "img";
       attrs := list_to_map [ ("srcset", VStr ""); ("width", VStr "300") ];
       classes := []; children := [] |} in
  let run := srcsetAttributeConverter_converter Sample.getViewImgFromWidget
               Sample.srcset_event (Sample.change VNull (srcset_value source)) in
  srcset_value source = VObj [("data", VStr ""); ("width", VStr "300")]
  ∧ made_calls run Sample.world
    = [EvConsume 1%positive [FEvent Sample.srcset_event] true]
  ∧ view (st (run Sample.world).2) = view (st Sample.world).
Proof.
  intros source run.
  pose proof (srcset_upcast_empty_then_downcast
                Sample.getViewImgFromWidget Sample.srcset_event
                (Sample.change VNull (srcset_value source)) Sample.world source
                eq_refl eq_refl eq_refl) as H.
  destruct H as (Hcalls & Hview & _).
  split; [vm_compute; reflexivity | split; [exact Hcalls | exact Hview]].
Defined.
